(** * Gaussian elimination notebook: a shallow embedding

    The notebook [gaussian_elimination.ipynb] is NumPy code over
    [float64] arrays.  Arrays are Python objects: a name holds a
    reference, [M.copy()] allocates a new object and [M[row] = ...]
    updates an object in place.  The embedding keeps all of this:

    - scalars are binary64 floats (Rocq's primitive floats, the very
      IEEE 754 operations NumPy performs on [float64]);
    - a two-dimensional array is the list of its rows, and the store
      maps references to arrays;
    - every notebook function is a computation in a store-and-exception
      monad, written statement by statement after the Python source;
    - Python integers used as indices are in [Z], with NumPy's rule for
      negative indices and for slices. *)

From Stdlib Require Import Floats ZArith String.
From stdpp Require Import base option list.

#[local] Set Warnings "-inexact-float".
#[local] Open Scope Z_scope.

(** ** Stores, exceptions and the monad *)

Abbreviation row := (list float).
Abbreviation ndarray := (list (list float)).
Abbreviation loc := nat.
Abbreviation heap := (list (list (list float))).

Inductive exn : Type :=
| IndexError
| ValueError
| LinAlgError
| TypeError
| NameError (name : string).

Inductive res (A : Type) : Type :=
| Ok (a : A)
| Raise (e : exn).
Arguments Ok {A} a.
Arguments Raise {A} e.

(** A computation sees the store and leaves a store behind, also when
    it raises. *)
Definition py (A : Type) : Type := heap -> res A * heap.

Definition py_ret {A} (a : A) : py A := fun h => (Ok a, h).

Definition py_bind {A B} (k : A -> py B) (m : py A) : py B :=
  fun h => match m h with
           | (Ok a, h') => k a h'
           | (Raise e, h') => (Raise e, h')
           end.

#[global] Instance py_mret : MRet py := @py_ret.
#[global] Instance py_mbind : MBind py := @py_bind.

Definition raise {A} (e : exn) : py A := fun h => (Raise e, h).

Definition lift {A} (r : res A) : py A := fun h => (r, h).

(** Dereference: the array object a reference names. *)
Definition deref (l : loc) : py ndarray :=
  fun h => match h !! l with
           | Some a => (Ok a, h)
           | None => (Raise TypeError, h)
           end.

(** A new array object; its reference is new. *)
Definition alloc (a : ndarray) : py loc :=
  fun h => (Ok (length h), h ++ [a]).

(** In-place update of an array object. *)
Definition store (l : loc) (a : ndarray) : py unit :=
  fun h => (Ok tt, <[l := a]> h).

(** [for x in xs: acc = body(x, acc)] *)
Fixpoint for_each {X S} (xs : list X) (body : X -> S -> py S) (acc : S) : py S :=
  match xs with
  | [] => mret acc
  | x :: xs' => acc' ← body x acc; for_each xs' body acc'
  end.

(** [range(a, b)] for naturals. *)
Definition range (a b : nat) : list nat := seq a (b - a).

(** ** NumPy on array values

    NumPy is not the notebook's code: the operations the notebook
    calls are written here after NumPy's documented behaviour on
    two-dimensional arrays.  An array with no row is the empty list,
    whatever its second dimension: what is stated below of a column
    index is stated of arrays that have a row. *)

Definition nrows (M : ndarray) : nat := length M.

Definition ncols (M : ndarray) : nat :=
  match M with
  | [] => 0%nat
  | r :: _ => length r
  end.

(** An integer index into an axis of size [n]: negative indices count
    from the end, anything outside [-n, n) is an [IndexError]. *)
Definition norm_index (n : nat) (i : Z) : res nat :=
  if (0 <=? i) && (i <? Z.of_nat n) then Ok (Z.to_nat i)
  else if (- Z.of_nat n <=? i) && (i <? 0) then Ok (Z.to_nat (Z.of_nat n + i))
  else Raise IndexError.

(** The start of a slice [s:] on an axis of size [n]: clipped, never
    an error. *)
Definition slice_start (n : nat) (s : Z) : nat :=
  if s <? 0 then Z.to_nat (Z.max 0 (Z.of_nat n + s))
  else Z.to_nat (Z.min s (Z.of_nat n)).

Definition res_bind {A B} (r : res A) (k : A -> res B) : res B :=
  match r with
  | Ok a => k a
  | Raise e => Raise e
  end.

(** [M[i]] *)
Definition getrow (M : ndarray) (i : Z) : res row :=
  res_bind (norm_index (nrows M) i) (fun i' =>
  match M !! i' with
  | Some r => Ok r
  | None => Raise IndexError
  end).

(** [M[i, j]] *)
Definition getitem (M : ndarray) (i j : Z) : res float :=
  res_bind (norm_index (nrows M) i) (fun i' =>
  res_bind (norm_index (ncols M) j) (fun j' =>
  match M !! i' with
  | Some r => match r !! j' with
              | Some x => Ok x
              | None => Raise IndexError
              end
  | None => Raise IndexError
  end)).

(** [M[i] = r]: the row assigned must have the array's width. *)
Definition setrow (M : ndarray) (i : Z) (r : row) : res ndarray :=
  res_bind (norm_index (nrows M) i) (fun i' =>
  if Nat.eqb (length r) (ncols M) then Ok (<[i' := r]> M)
  else Raise ValueError).

(** [M[[i1, i2, ...]]]: the listed rows, as a new array. *)
Fixpoint take_rows (M : ndarray) (idx : list Z) : res ndarray :=
  match idx with
  | [] => Ok []
  | i :: idx' =>
      res_bind (getrow M i) (fun r =>
      res_bind (take_rows M idx') (fun rs => Ok (r :: rs)))
  end.

(** [M[[i1, i2, ...]] = V]: all indices are checked, then the rows are
    assigned in order, so that a repeated index keeps the last value. *)
Fixpoint norm_indices (n : nat) (idx : list Z) : res (list nat) :=
  match idx with
  | [] => Ok []
  | i :: idx' =>
      res_bind (norm_index n i) (fun i' =>
      res_bind (norm_indices n idx') (fun r => Ok (i' :: r)))
  end.

Fixpoint assign_rows (M : ndarray) (idx : list nat) (V : ndarray) : ndarray :=
  match idx, V with
  | i :: idx', r :: V' => assign_rows (<[i := r]> M) idx' V'
  | _, _ => M
  end.

Definition put_rows (M : ndarray) (idx : list Z) (V : ndarray) : res ndarray :=
  res_bind (norm_indices (nrows M) idx) (fun idx' =>
  if Nat.eqb (length V) (length idx') && forallb (fun r => Nat.eqb (length r) (ncols M)) V
  then Ok (assign_rows M idx' V)
  else Raise ValueError).

(** [M[s:, c]]: column [c] of the rows from [s] on. *)
Definition slice_column (M : ndarray) (s c : Z) : res row :=
  res_bind (norm_index (ncols M) c) (fun c' =>
  Ok (omap (fun r : row => r !! c') (drop (slice_start (nrows M) s) M))).

(** [M[:, :-1]]: every row without its last entry. *)
Definition drop_last_column (M : ndarray) : ndarray :=
  map (fun r : row => take (length r - 1) r) M.

(** [np.hstack((A, B))] for two-dimensional arrays: the row counts must
    agree. *)
Definition hstack (A B : ndarray) : res ndarray :=
  if Nat.eqb (nrows A) (nrows B) then Ok (zip_with app A B)
  else Raise ValueError.

(** [np.isclose(a, b, rtol, atol)] on scalars:
    [|a - b| <= atol + rtol * |b|] for finite [b], or [a == b]. *)
Definition np_isclose (a b rtol atol : float) : bool :=
  ((abs (a - b) <=? atol + rtol * abs b) && is_finite b || (a =? b))%float.

(** The defaults of [np.isclose]: [rtol=1e-05, atol=1e-08]. *)
Definition default_rtol : float := 1e-5%float.
Definition default_atol : float := 1e-8%float.

Definition is_square (M : ndarray) : bool :=
  forallb (fun r : row => Nat.eqb (length r) (nrows M)) M.

(** ** NumPy on array objects *)

(** [M.copy()] *)
Definition ndarray_copy (M : loc) : py loc :=
  a ← deref M; alloc a.

(** [M.astype('float64')]: always a new array.  Entries are floats
    already, an integer array being modelled by the floats of its
    integers. *)
Definition astype_float64 (M : loc) : py loc :=
  a ← deref M; alloc a.

(** [len(M)] *)
Definition len (M : loc) : py nat :=
  a ← deref M; mret (nrows a).

(** ** The notebook *)

(** [swap_rows(M, row_index_1, row_index_2)] *)
Definition swap_rows (M : loc) (row_index_1 row_index_2 : Z) : py loc :=
  M ← ndarray_copy M;
  a ← deref M;
  rhs ← lift (take_rows a [row_index_2; row_index_1]);
  a' ← lift (put_rows a [row_index_1; row_index_2] rhs);
  _ ← store M a';
  mret M.

(** The loop
    [for i, val in enumerate(values):
         if not np.isclose(val, 0, atol=1e-5): return i + offset
     return -1]
    shared by the two scanners ([offset] is [starting_row] in the
    column scanner and absent, that is 0, in the row scanner). *)
Fixpoint first_non_zero (values : row) (i offset : Z) : Z :=
  match values with
  | [] => -1
  | val :: rest =>
      if negb (np_isclose val 0 default_rtol 1e-5)
      then i + offset
      else first_non_zero rest (i + 1) offset
  end.

(** [get_index_first_non_zero_from_column(M, column, starting_row)] *)
Definition get_index_first_non_zero_from_column
    (M : loc) (column starting_row : Z) : py Z :=
  a ← deref M;
  column_array ← lift (slice_column a starting_row column);
  mret (first_non_zero column_array 0 starting_row).

(** [get_index_first_non_zero_from_row(M, row, augmented=False)] *)
Definition get_index_first_non_zero_from_row
    (M : loc) (row : Z) (augmented : bool) : py Z :=
  M ← ndarray_copy M;
  a ← deref M;
  let a := if augmented then drop_last_column a else a in
  row_array ← lift (getrow a row);
  mret (first_non_zero row_array 0 0).

(** [augmented_matrix(A, B)] *)
Definition augmented_matrix (A B : loc) : py loc :=
  a ← deref A;
  b ← deref B;
  augmented_M ← lift (hstack a b);
  alloc augmented_M.

(** What [row_echelon_form] and [gaussian_elimination] return: the
    string ['singular system'] or an array. *)
Inductive value : Type :=
| VStr (s : string)
| VArr (l : loc).

Definition singular_system : string := "singular system".

Section Notebook.

(** [np.linalg.det] on a square array is NumPy's (LAPACK's) code and
    not the notebook's: it is a parameter. *)
Variable det : ndarray -> float.

(** [np.linalg.det(A)]: refuses an array that is not square. *)
Definition linalg_det (A : loc) : py float :=
  a ← deref A;
  if is_square a then mret (det a) else raise LinAlgError.

(** [M[row] = M[row] / pivot] *)
Definition normalize_row (M : loc) (row : nat) (pivot : float) : py unit :=
  a ← deref M;
  r ← lift (getrow a (Z.of_nat row));
  a' ← lift (setrow a (Z.of_nat row) (map (fun x => (x / pivot)%float) r));
  store M a'.

(** [value_below_pivot = M[j, row]; M[j] = M[j] - value_below_pivot * M[row]] *)
Definition eliminate_row (row j : nat) (M : loc) : py loc :=
  a ← deref M;
  value_below_pivot ← lift (getitem a (Z.of_nat j) (Z.of_nat row));
  rj ← lift (getrow a (Z.of_nat j));
  rr ← lift (getrow a (Z.of_nat row));
  a' ← lift (setrow a (Z.of_nat j)
               (zip_with (fun x y => (x - value_below_pivot * y)%float) rj rr));
  _ ← store M a';
  mret M.

(** The choice of the pivot of one row: [None] is the [continue] of the
    loop, otherwise the array to go on with and the pivot. *)
Definition select_pivot (M : loc) (row : nat) : py (option (loc * float)) :=
  a ← deref M;
  pivot_candidate ← lift (getitem a (Z.of_nat row) (Z.of_nat row));
  if np_isclose pivot_candidate 0 default_rtol default_atol then
    swap_row_index ← get_index_first_non_zero_from_column M (Z.of_nat row) (Z.of_nat row + 1);
    if swap_row_index =? -1 then mret None
    else
      M ← swap_rows M (Z.of_nat row) swap_row_index;
      a ← deref M;
      pivot ← lift (getitem a (Z.of_nat row) (Z.of_nat row));
      mret (Some (M, pivot))
  else mret (Some (M, pivot_candidate)).

(** The body of [for row in range(num_rows)]. *)
Definition reduce_row (num_rows : nat) (row : nat) (M : loc) : py loc :=
  sel ← select_pivot M row;
  match sel with
  | None => mret M
  | Some (M, pivot) =>
      _ ← normalize_row M row pivot;
      for_each (range (row + 1) num_rows) (eliminate_row row) M
  end.

(** [row_echelon_form(A, B)] *)
Definition row_echelon_form (A B : loc) : py value :=
  d ← linalg_det A;
  if np_isclose d 0 default_rtol default_atol then mret (VStr singular_system)
  else
    A ← (A ← astype_float64 A; ndarray_copy A);
    B ← (B ← astype_float64 B; ndarray_copy B);
    M ← augmented_matrix A B;
    num_rows ← len A;
    M ← for_each (range 0 num_rows) (reduce_row num_rows) M;
    mret (VArr M).

(** [gaussian_elimination(A, B)].  No cell of the notebook defines
    [back_substitution]: evaluating that name raises [NameError]. *)
Definition gaussian_elimination (A B : loc) : py value :=
  row_echelon_M ← row_echelon_form A B;
  match row_echelon_M with
  | VStr s => mret (VStr s)
  | VArr _ => raise (NameError "back_substitution")
  end.

End Notebook.

(** The names the notebook's cells bind, in order. *)
Definition notebook_names : list string :=
  [ "np"; "pd"; "swap_rows"; "M"; "get_index_first_non_zero_from_column"; "N";
    "get_index_first_non_zero_from_row"; "augmented_matrix"; "A"; "B";
    "row_echelon_form"; "gaussian_elimination"; "solution" ]%string.

(** ** The notebook on array values

    The same statements read on the array a reference names, the store
    left out: what each function computes from the contents of its
    arguments.  The lemmas [*_refines] below relate the two readings. *)

(** Every row of [M] has [c] entries; NumPy arrays are rectangular. *)
Definition rectangular (c : nat) (M : ndarray) : Prop :=
  Forall (fun r : row => length r = c) M.

Definition shape (n c : nat) (M : ndarray) : Prop :=
  nrows M = n /\ rectangular c M.

Definition swap_rows_val (a : ndarray) (row_index_1 row_index_2 : Z) : res ndarray :=
  res_bind (take_rows a [row_index_2; row_index_1]) (fun rhs =>
  put_rows a [row_index_1; row_index_2] rhs).

Definition first_non_zero_from_column_val (a : ndarray) (column starting_row : Z) : res Z :=
  res_bind (slice_column a starting_row column) (fun column_array =>
  Ok (first_non_zero column_array 0 starting_row)).

Definition select_pivot_val (a : ndarray) (row : nat) : res (option (ndarray * float)) :=
  res_bind (getitem a (Z.of_nat row) (Z.of_nat row)) (fun pivot_candidate =>
  if np_isclose pivot_candidate 0 default_rtol default_atol then
    res_bind (first_non_zero_from_column_val a (Z.of_nat row) (Z.of_nat row + 1))
      (fun swap_row_index =>
    if swap_row_index =? -1 then Ok None
    else
      res_bind (swap_rows_val a (Z.of_nat row) swap_row_index) (fun a1 =>
      res_bind (getitem a1 (Z.of_nat row) (Z.of_nat row)) (fun pivot =>
      Ok (Some (a1, pivot)))))
  else Ok (Some (a, pivot_candidate))).

Definition normalize_row_val (a : ndarray) (row : nat) (pivot : float) : res ndarray :=
  res_bind (getrow a (Z.of_nat row)) (fun r =>
  setrow a (Z.of_nat row) (map (fun x => (x / pivot)%float) r)).

Definition eliminate_row_val (row j : nat) (a : ndarray) : res ndarray :=
  res_bind (getitem a (Z.of_nat j) (Z.of_nat row)) (fun value_below_pivot =>
  res_bind (getrow a (Z.of_nat j)) (fun rj =>
  res_bind (getrow a (Z.of_nat row)) (fun rr =>
  setrow a (Z.of_nat j)
    (zip_with (fun x y => (x - value_below_pivot * y)%float) rj rr)))).

Fixpoint fold_res {X S} (xs : list X) (body : X -> S -> res S) (acc : S) : res S :=
  match xs with
  | [] => Ok acc
  | x :: xs' => res_bind (body x acc) (fold_res xs' body)
  end.

Definition reduce_row_val (num_rows : nat) (row : nat) (a : ndarray) : res ndarray :=
  res_bind (select_pivot_val a row) (fun sel =>
  match sel with
  | None => Ok a
  | Some (a1, pivot) =>
      res_bind (normalize_row_val a1 row pivot) (fun a2 =>
      fold_res (range (row + 1) num_rows) (eliminate_row_val row) a2)
  end).

(** The array after the rows [rows] have been processed, starting
    from [a]. *)
Definition reduce_rows_val (num_rows : nat) (rows : list nat) (a : ndarray) : res ndarray :=
  fold_res rows (reduce_row_val num_rows) a.

(** The reduction of [[A | B]], past the determinant test. *)
Definition reduced_val (a b : ndarray) : res ndarray :=
  res_bind (hstack a b) (fun m => reduce_rows_val (nrows a) (range 0 (nrows a)) m).

(** The store [h'] after a computation started in [h], for a caller
    that owns the first [base] cells: those cells are as they were, and
    no cell has gone. *)
Definition evolves (base : nat) (h h' : heap) : Prop :=
  take base h' = take base h /\ (length h <= length h')%nat.

(** A computation on an array object does, in the store, what its
    value reading [r] says: it raises what [r] raises, or returns an
    array object of the callee's own holding the array of [r]. *)
Definition refines (base : nat) (m : py loc) (r : res ndarray) (h : heap) : Prop :=
  exists h', evolves base h h' /\
    match r with
    | Ok a' => exists M', m h = (Ok M', h') /\ (base <= M')%nat /\ h' !! M' = Some a'
    | Raise e => m h = (Raise e, h')
    end.

(** ** A determinant to run the notebook with

    Elimination with partial pivoting (the largest entry of the column
    in absolute value becomes the pivot), the product of the pivots and
    a sign for the row exchanges.  It stands in for [np.linalg.det]
    wherever an example below is evaluated; no general statement
    depends on it. *)

Fixpoint argmax_head (M : ndarray) (i best : nat) (bestv : float) : nat :=
  match M with
  | [] => best
  | r :: M' =>
      let v := abs (hd 0%float r) in
      if (bestv <? v)%float then argmax_head M' (S i) i v
      else argmax_head M' (S i) best bestv
  end.

Definition swap_front (k : nat) (M : ndarray) : ndarray :=
  match M, M !! k with
  | r0 :: _, Some rk => rk :: tail (<[k := r0]> M)
  | _, _ => M
  end.

Fixpoint det_lu_aux (fuel : nat) (M : ndarray) : float :=
  match fuel with
  | O => 1%float
  | S fuel' =>
      match M with
      | [] => 1%float
      | r0 :: rest0 =>
          let k := argmax_head rest0 1 0 (abs (hd 0%float r0)) in
          match swap_front k M with
          | [] => 1%float
          | pr :: rest =>
              let p := hd 0%float pr in
              let sub :=
                if (p =? 0)%float then map (fun r : row => tail r) rest
                else map (fun r : row =>
                            let l := (hd 0%float r / p)%float in
                            tail (zip_with (fun x y => (x - l * y)%float) r pr)) rest in
              ((if Nat.eqb k 0 then p else - p) * det_lu_aux fuel' sub)%float
          end
      end
  end.

Definition det_lu (M : ndarray) : float := det_lu_aux (nrows M) M.

(** The arrays of the notebook's cells. *)
Definition A_example : ndarray :=
  [ [2; 1; -1]; [-3; -1; 2]; [-2; 1; 2] ]%float.
Definition B_example : ndarray := [ [8]; [-11]; [-3] ]%float.
Definition N_example : ndarray :=
  [ [0; 5; -3; 6; 8]; [0; 6; 3; 8; 1]; [0; 0; 0; 0; 0];
    [0; 0; 0; 0; 7]; [0; 2; 1; 0; 4] ]%float.
Definition M_example : ndarray :=
  [ [1; 3; 6]; [0; -5; 2]; [-4; 5; 8] ]%float.


Definition B_skip : ndarray := [ [1]; [2] ]%float.
Definition M_skip : ndarray := [ [1e-9; 1; 1]; [1e-6; 1; 2] ]%float.

(** A system whose only coefficient lies between the two tolerances. *)
Definition A_small : ndarray := [ [1e-6] ]%float.
Definition B_small : ndarray := [ [1] ]%float.

(** A system of finite entries whose elimination overflows. *)
Definition A_huge : ndarray := [ [1; 1e200]; [1e200; 1] ]%float.
Definition B_huge : ndarray := [ [1]; [2] ]%float.
Definition M_huge : ndarray := [ [1; 1e200; 1]; [-0; nan; 0] ]%float.

(** An array whose first diagonal entry is zero, with two candidate
    rows below it. *)
Definition M_pivot : ndarray := [ [0; 1; 1]; [2; 1; 1]; [8; 1; 1] ]%float.


(** ** Rows that received a pivot, and regular arithmetic

    Division and subtraction are binary64 operations: [p / p] is [1]
    and [v - v * 1] is [0] for finite values, not for an infinity or a
    NaN.  The tests below say, operation by operation, that the pivots
    and multipliers of a reduction behave as finite values do. *)

Definition float_zero (z : float) : Prop := z = 0%float \/ z = (-0)%float.

Definition is_float_zero (z : float) : bool :=
  Leibniz.eqb z 0%float || Leibniz.eqb z (-0)%float.

Definition regular_pivot (p : float) : bool :=
  Leibniz.eqb (p / p)%float 1%float &&
  is_float_zero (0 / p)%float && is_float_zero ((-0) / p)%float.

Definition regular_multiplier (v : float) : bool :=
  Leibniz.eqb (v - v * 1)%float 0%float &&
  is_float_zero (0 - v * 0)%float && is_float_zero (0 - v * (-0))%float &&
  is_float_zero ((-0) - v * 0)%float && is_float_zero ((-0) - v * (-0))%float.

(** The pivot of row [row] and the multipliers of the rows below it
    are regular. *)
Definition regular_row (num_rows row : nat) (a : ndarray) : bool :=
  match select_pivot_val a row with
  | Ok (Some (a1, pivot)) =>
      regular_pivot pivot &&
      forallb (fun j : nat =>
                 match getitem a1 (Z.of_nat j) (Z.of_nat row) with
                 | Ok v => regular_multiplier v
                 | Raise _ => true
                 end) (range (row + 1) num_rows)
  | _ => true
  end.

Fixpoint regular_rows (num_rows : nat) (rows : list nat) (a : ndarray) : bool :=
  match rows with
  | [] => true
  | row :: rows' =>
      regular_row num_rows row a &&
      match reduce_row_val num_rows row a with
      | Ok a' => regular_rows num_rows rows' a'
      | Raise _ => true
      end
  end.

(** The rows for which the loop did not [continue]. *)
Fixpoint pivoted_rows (num_rows : nat) (rows : list nat) (a : ndarray) : list nat :=
  match rows with
  | [] => []
  | row :: rows' =>
      match select_pivot_val a row with
      | Ok (Some _) => [row]
      | _ => []
      end ++
      match reduce_row_val num_rows row a with
      | Ok a' => pivoted_rows num_rows rows' a'
      | Raise _ => []
      end
  end.

Definition regular_reduction (a b : ndarray) : bool :=
  match hstack a b with
  | Ok m => regular_rows (nrows a) (range 0 (nrows a)) m
  | Raise _ => true
  end.

Definition received_pivot (a b : ndarray) : list nat :=
  match hstack a b with
  | Ok m => pivoted_rows (nrows a) (range 0 (nrows a)) m
  | Raise _ => []
  end.

(** Row [i] of [a] has [1] on the diagonal and a zero in column [i] of
    every row below. *)
Definition echelon_at (a : ndarray) (i : nat) : Prop :=
  (exists r, a !! i = Some r /\ r !! i = Some 1%float) /\
  (forall j rj, (i < j)%nat -> a !! j = Some rj ->
                exists z, rj !! i = Some z /\ float_zero z).

(** ** Running computations *)

Lemma bind_ok {A B} (m : py A) (k : A -> py B) h a h' :
  m h = (Ok a, h') -> (m ≫= k) h = k a h'.
Proof. intros E. unfold mbind, py_mbind, py_bind. by rewrite E. Qed.

Lemma bind_run {A B} (m : py A) (k : A -> py B) h :
  (m ≫= k) h = match m h with
               | (Ok a, h') => k a h'
               | (Raise e, h') => (Raise e, h')
               end.
Proof. reflexivity. Qed.

Lemma bind_raise {A B} (m : py A) (k : A -> py B) h e h' :
  m h = (Raise e, h') -> (m ≫= k) h = (Raise e, h').
Proof. intros E. unfold mbind, py_mbind, py_bind. by rewrite E. Qed.

Lemma deref_ok h l a : h !! l = Some a -> deref l h = (Ok a, h).
Proof. intros E. unfold deref. by rewrite E. Qed.

Lemma ndarray_copy_ok h l a :
  h !! l = Some a -> ndarray_copy l h = (Ok (length h), h ++ [a]).
Proof. intros E. unfold ndarray_copy. by rewrite (bind_ok _ _ _ _ _ (deref_ok _ _ _ E)). Qed.

Lemma lookup_fresh (h : heap) (a : ndarray) : (h ++ [a]) !! length h = Some a.
Proof. by rewrite lookup_app_r, Nat.sub_diag. Qed.

Lemma lookup_old (h : heap) (a : ndarray) l x :
  h !! l = Some x -> (h ++ [a]) !! l = Some x.
Proof. intros E. by apply lookup_app_l_Some. Qed.

(** ** augmented_matrix *)

Lemma zip_with_app_lookup (a b : ndarray) i ra rb :
  a !! i = Some ra -> b !! i = Some rb -> zip_with app a b !! i = Some (ra ++ rb).
Proof. intros Ha Hb. rewrite lookup_zip_with, Ha. simpl. by rewrite Hb. Qed.

Lemma zip_with_app_rect n k (a b : ndarray) :
  rectangular n a -> rectangular k b -> rectangular (n + k) (zip_with app a b).
Proof.
  unfold rectangular. intros Ha. revert b.
  induction Ha as [|r a Hr Ha IH]; intros b Hb; simpl; [constructor|].
  destruct Hb as [|r' b Hr' Hb]; constructor.
  - rewrite length_app. lia.
  - by apply IH.
Qed.

(** C10: on an [n x n] array [A] and an [n x k] array [B],
    [augmented_matrix(A, B)] returns a new array (a reference the store
    did not have, the store being otherwise as before) of [n] rows and
    [n + k] columns, whose every row is that row of [A] followed by
    that row of [B]; and on [[1,2],[3,4]] and [[5],[6]] it returns
    [[1,2,5],[3,4,6]]. *)
Theorem augmented_matrix_spec (h : heap) (A B : loc) (a b : ndarray) (n k : nat) :
  h !! A = Some a -> h !! B = Some b ->
  nrows a = n -> rectangular n a ->
  nrows b = n -> rectangular k b ->
  (exists m : ndarray,
     augmented_matrix A B h = (Ok (length h), h ++ [m]) /\
     h !! length h = None /\
     nrows m = n /\ rectangular (n + k) m /\
     forall i ra rb, a !! i = Some ra -> b !! i = Some rb -> m !! i = Some (ra ++ rb)) /\
  augmented_matrix 0%nat 1%nat [ [[1; 2]; [3; 4]]; [[5]; [6]] ]%float
  = (Ok 2%nat, [ [[1; 2]; [3; 4]]; [[5]; [6]]; [[1; 2; 5]; [3; 4; 6]] ]%float).
Proof.
  intros HA HB Hn Hra Hnb Hrb. split; [|reflexivity].
  exists (zip_with app a b). repeat split.
  - unfold augmented_matrix.
    rewrite (bind_ok _ _ _ _ _ (deref_ok _ _ _ HA)).
    rewrite (bind_ok _ _ _ _ _ (deref_ok _ _ _ HB)).
    unfold hstack. rewrite Hn, Hnb, Nat.eqb_refl. reflexivity.
  - apply lookup_ge_None. lia.
  - unfold nrows in *. rewrite length_zip_with. lia.
  - by apply zip_with_app_rect.
  - intros i ra rb. apply zip_with_app_lookup.
Qed.

Lemma augmented_matrix_spec_witness :
  exists m : ndarray,
    augmented_matrix 0%nat 1%nat [A_example; B_example]
    = (Ok 2%nat, [A_example; B_example] ++ [m]) /\ nrows m = 3%nat.
Proof.
  destruct (augmented_matrix_spec [A_example; B_example] 0 1 A_example B_example 3 1)
    as [(m & E & _ & Hn & _) _].
  - reflexivity.
  - reflexivity.
  - reflexivity.
  - repeat constructor.
  - reflexivity.
  - repeat constructor.
  - exists m. split; [exact E | exact Hn].
Defined.

(** ** The store reading refines the value reading *)

Lemma lift_bind {A B} (r : res A) (k : A -> py B) h :
  (lift r ≫= k) h = match r with Ok a => k a h | Raise e => (Raise e, h) end.
Proof. unfold mbind, py_mbind, py_bind, lift. by destruct r. Qed.

Lemma insert_fresh (h : heap) (a a' : ndarray) :
  <[length h := a']> (h ++ [a]) = h ++ [a'].
Proof.
  replace (length h) with (length h + 0)%nat at 1 by lia.
  by rewrite insert_app_r.
Qed.

Lemma get_index_first_non_zero_from_column_refines h M a column starting_row :
  h !! M = Some a ->
  get_index_first_non_zero_from_column M column starting_row h
  = (first_non_zero_from_column_val a column starting_row, h).
Proof.
  intros HM. unfold get_index_first_non_zero_from_column, first_non_zero_from_column_val.
  rewrite (bind_ok _ _ _ _ _ (deref_ok _ _ _ HM)), lift_bind.
  by destruct (slice_column a starting_row column).
Qed.

Lemma swap_rows_refines h M a i j :
  h !! M = Some a ->
  swap_rows M i j h
  = match swap_rows_val a i j with
    | Ok a1 => (Ok (length h), h ++ [a1])
    | Raise e => (Raise e, h ++ [a])
    end.
Proof.
  intros HM. unfold swap_rows, swap_rows_val.
  rewrite (bind_ok _ _ _ _ _ (ndarray_copy_ok _ _ _ HM)).
  rewrite (bind_ok _ _ _ _ _ (deref_ok _ _ _ (lookup_fresh h a))), lift_bind.
  destruct (take_rows a [j; i]) as [rhs|e]; simpl; [|done].
  rewrite lift_bind.
  destruct (put_rows a [i; j] rhs) as [a'|e]; simpl; [|done].
  unfold mbind, py_mbind, py_bind, store, mret, py_mret, py_ret.
  by rewrite insert_fresh.
Qed.

(** ** Indices and shapes *)

Lemma norm_index_lt n i i' : norm_index n i = Ok i' -> (i' < n)%nat.
Proof.
  unfold norm_index. intros H.
  destruct (0 <=? i) eqn:E1, (i <? Z.of_nat n) eqn:E2; simpl in H;
    try (injection H as <-; lia);
    destruct (- Z.of_nat n <=? i) eqn:E3, (i <? 0) eqn:E4; simpl in H;
    try discriminate; injection H as <-; lia.
Qed.

Lemma norm_index_nonneg n i :
  0 <= i < Z.of_nat n -> norm_index n i = Ok (Z.to_nat i).
Proof.
  intros [H1 H2]. unfold norm_index.
  apply Z.leb_le in H1. apply Z.ltb_lt in H2. by rewrite H1, H2.
Qed.

Lemma norm_index_nat n (i : nat) :
  (i < n)%nat -> norm_index n (Z.of_nat i) = Ok i.
Proof. intros H. rewrite norm_index_nonneg by lia. by rewrite Nat2Z.id. Qed.

Lemma norm_index_valid n i :
  - Z.of_nat n <= i < Z.of_nat n -> exists i', norm_index n i = Ok i' /\ (i' < n)%nat.
Proof.
  intros [H1 H2]. unfold norm_index.
  destruct (0 <=? i) eqn:E1.
  - apply Z.ltb_lt in H2. rewrite H2. simpl. eexists. split; [done|]. lia.
  - simpl. apply Z.leb_le in H1. rewrite H1.
    assert ((i <? 0) = true) as -> by lia. simpl. eexists. split; [done|]. lia.
Qed.

Lemma rectangular_lookup c (a : ndarray) i r :
  rectangular c a -> a !! i = Some r -> length r = c.
Proof. intros Hr Hi. by apply (Forall_lookup_1 _ _ _ _ Hr Hi). Qed.

Lemma rectangular_insert c (a : ndarray) i r :
  rectangular c a -> length r = c -> rectangular c (<[i := r]> a).
Proof. intros Hr Hl. by apply Forall_insert. Qed.

Lemma ncols_rectangular c (a : ndarray) :
  rectangular c a -> (0 < nrows a)%nat -> ncols a = c.
Proof. intros Hr Hn. destruct a as [|r a]; simpl in *; [lia|]. by inversion Hr. Qed.

Lemma ncols_insert (a : ndarray) i r :
  length r = ncols a -> ncols (<[i := r]> a) = ncols a.
Proof. destruct a as [|r0 a]; [done|]. by destruct i. Qed.

Lemma getrow_ok (a : ndarray) i i' r :
  norm_index (nrows a) i = Ok i' -> a !! i' = Some r -> getrow a i = Ok r.
Proof. intros Hi Hr. unfold getrow. rewrite Hi. simpl. by rewrite Hr. Qed.

Lemma getitem_ok (a : ndarray) i j i' j' r x :
  norm_index (nrows a) i = Ok i' -> norm_index (ncols a) j = Ok j' ->
  a !! i' = Some r -> r !! j' = Some x -> getitem a i j = Ok x.
Proof. intros Hi Hj Hr Hx. unfold getitem. rewrite Hi, Hj. simpl. by rewrite Hr, Hx. Qed.

(** Rows [i'] and [j'] of [a] exchanged. *)
Lemma swap_rows_val_ok (a : ndarray) i j i' j' ri rj :
  rectangular (ncols a) a ->
  norm_index (nrows a) i = Ok i' -> norm_index (nrows a) j = Ok j' ->
  a !! i' = Some ri -> a !! j' = Some rj ->
  swap_rows_val a i j = Ok (<[j' := ri]> (<[i' := rj]> a)).
Proof.
  intros Hr Hi Hj Hri Hrj. unfold swap_rows_val. simpl.
  rewrite (getrow_ok _ _ _ _ Hj Hrj), (getrow_ok _ _ _ _ Hi Hri). simpl.
  unfold put_rows. simpl. rewrite Hi, Hj. simpl.
  rewrite (rectangular_lookup _ _ _ _ Hr Hri), (rectangular_lookup _ _ _ _ Hr Hrj).
  by rewrite Nat.eqb_refl.
Qed.

Lemma swap_back (a : ndarray) i' j' ri rj :
  a !! i' = Some ri -> a !! j' = Some rj ->
  <[i' := ri]> (<[j' := rj]> (<[j' := ri]> (<[i' := rj]> a))) = a.
Proof.
  intros Hri Hrj. apply list_eq. intros k.
  assert (i' < length a)%nat by (by eapply lookup_lt_Some).
  assert (j' < length a)%nat by (by eapply lookup_lt_Some).
  destruct (decide (k = i')) as [->|Hki].
  - rewrite list_lookup_insert_eq; [done|]. by rewrite !length_insert.
  - rewrite list_lookup_insert_ne by done.
    destruct (decide (k = j')) as [->|Hkj].
    + rewrite list_lookup_insert_eq; [done|]. by rewrite !length_insert.
    + by rewrite !list_lookup_insert_ne.
Qed.

(** ** swap_rows *)

Lemma swap_rows_ok h M (a : ndarray) i j i' j' ri rj :
  h !! M = Some a -> rectangular (ncols a) a ->
  norm_index (nrows a) i = Ok i' -> norm_index (nrows a) j = Ok j' ->
  a !! i' = Some ri -> a !! j' = Some rj ->
  swap_rows M i j h = (Ok (length h), h ++ [<[j' := ri]> (<[i' := rj]> a)]).
Proof.
  intros HM Hr Hi Hj Hri Hrj.
  by rewrite (swap_rows_refines _ _ _ _ _ HM), (swap_rows_val_ok _ _ _ _ _ _ _ Hr Hi Hj Hri Hrj).
Qed.

(** C9: for valid row indices [i] and [j] of [M] (negative ones
    included, as NumPy reads them),
    [swap_rows(swap_rows(M, i, j), j, i)] runs without error and the
    array it returns has the contents of [M], entry for entry. *)
Theorem swap_rows_twice (h : heap) (M : loc) (a : ndarray) (i j : Z) :
  h !! M = Some a -> rectangular (ncols a) a ->
  - Z.of_nat (nrows a) <= i < Z.of_nat (nrows a) ->
  - Z.of_nat (nrows a) <= j < Z.of_nat (nrows a) ->
  exists (M1 M2 : loc) (h1 h2 : heap),
    swap_rows M i j h = (Ok M1, h1) /\
    swap_rows M1 j i h1 = (Ok M2, h2) /\
    h2 !! M2 = Some a.
Proof.
  intros HM Hr Hi Hj.
  destruct (norm_index_valid _ _ Hi) as (i' & Ei & Li).
  destruct (norm_index_valid _ _ Hj) as (j' & Ej & Lj).
  destruct (lookup_lt_is_Some_2 a i' Li) as [ri Hri].
  destruct (lookup_lt_is_Some_2 a j' Lj) as [rj Hrj].
  pose proof (rectangular_lookup _ _ _ _ Hr Hri) as Lri.
  pose proof (rectangular_lookup _ _ _ _ Hr Hrj) as Lrj.
  set (b := <[j' := ri]> (<[i' := rj]> a)).
  assert (Hnb : nrows b = nrows a) by (unfold nrows, b; by rewrite !length_insert).
  assert (Hcb : ncols b = ncols a).
  { unfold b. rewrite ncols_insert; rewrite ncols_insert; done. }
  assert (Hbj : b !! j' = Some ri).
  { unfold b. apply list_lookup_insert_eq. by rewrite length_insert. }
  assert (Hbi : b !! i' = Some rj).
  { unfold b. destruct (decide (i' = j')) as [->|Hne].
    - rewrite list_lookup_insert_eq by (by rewrite length_insert). congruence.
    - rewrite list_lookup_insert_ne by done. by apply list_lookup_insert_eq. }
  exists (length h), (length (h ++ [b])), (h ++ [b]), ((h ++ [b]) ++ [a]).
  split; [by eapply swap_rows_ok|]. split; [|apply lookup_fresh].
  rewrite (swap_rows_ok (h ++ [b]) (length h) b j i j' i' ri rj).
  - unfold b. by rewrite (swap_back a i' j' ri rj).
  - apply lookup_fresh.
  - rewrite Hcb. unfold b. by repeat apply rectangular_insert.
  - by rewrite Hnb.
  - by rewrite Hnb.
  - done.
  - done.
Qed.

Lemma swap_rows_twice_witness :
  exists (M1 M2 : loc) (h1 h2 : heap),
    swap_rows 0%nat 0 (-1) [M_example] = (Ok M1, h1) /\
    swap_rows M1 (-1) 0 h1 = (Ok M2, h2) /\
    h2 !! M2 = Some M_example.
Proof.
  apply (swap_rows_twice [M_example] 0%nat M_example 0 (-1)).
  - reflexivity.
  - repeat constructor.
  - simpl. lia.
  - simpl. lia.
Defined.

(** ** Tolerances *)

Lemma isclose_zero_gen (x t' t : float) m e :
  (t' + default_rtol * abs 0 = t)%float -> Prim2SF t = S754_finite false m e ->
  np_isclose x 0 default_rtol t' = (abs x <=? t)%float.
Proof.
  intros Ht HT. unfold np_isclose. rewrite Ht.
  replace (is_finite 0) with true by (vm_compute; reflexivity).
  rewrite !FloatAxioms.leb_spec, !FloatAxioms.abs_spec, FloatAxioms.sub_spec,
    FloatAxioms.eqb_spec, HT.
  replace (Prim2SF 0) with (S754_zero false) by (vm_compute; reflexivity).
  destruct (Prim2SF x) as [sx|sx| |sx mx ex]; try destruct sx;
    unfold SF64sub, SFsub, SFeqb, SFabs; simpl;
    try reflexivity; by destruct (SFleb _ _).
Qed.

(** The scanners' test [np.isclose(val, 0, atol=1e-5)]. *)
Lemma isclose_zero_scan x :
  np_isclose x 0 default_rtol 1e-5 = (abs x <=? 1e-5)%float.
Proof. eapply (isclose_zero_gen x); vm_compute; reflexivity. Qed.

(** The default test [np.isclose(val, 0)]. *)
Lemma isclose_zero_default x :
  np_isclose x 0 default_rtol default_atol = (abs x <=? 1e-8)%float.
Proof. eapply (isclose_zero_gen x); vm_compute; reflexivity. Qed.

(** ** The column scanner *)

Lemma first_non_zero_spec (values : row) (i offset : Z) :
  (first_non_zero values i offset = -1 /\
   forall k x, values !! k = Some x -> (abs x <=? 1e-5)%float = true) \/
  (exists (k : nat) x,
     values !! k = Some x /\ (abs x <=? 1e-5)%float = false /\
     first_non_zero values i offset = i + Z.of_nat k + offset /\
     forall (k' : nat) x', (k' < k)%nat -> values !! k' = Some x' ->
                           (abs x' <=? 1e-5)%float = true).
Proof.
  revert i. induction values as [|val rest IH]; intros i; simpl.
  - left. split; [done|]. intros k x Hk. by rewrite lookup_nil in Hk.
  - rewrite isclose_zero_scan. destruct (abs val <=? 1e-5)%float eqn:E; simpl.
    + destruct (IH (i + 1)) as [[Hr Hz]|(k & x & Hk & Hx & Hr & Hz)].
      * left. split; [done|]. intros [|k] x Hk; simpl in Hk; [congruence|eauto].
      * right. exists (S k), x. split; [done|]. split; [done|]. split; [lia|].
        intros [|k'] x' Hlt Hk'; simpl in Hk'; [congruence|]. apply (Hz k'); [lia|done].
    + right. exists 0%nat, val. split; [done|]. split; [done|]. split; [lia|]. lia.
Qed.

Lemma omap_cons_Some {A B} (f : A -> option B) x y (l : list A) :
  f x = Some y -> omap f (x :: l) = y :: omap f l.
Proof. intros E. simpl. by rewrite E. Qed.

Lemma column_lookup c c' (a : ndarray) (k : nat) :
  rectangular c a -> (c' < c)%nat ->
  omap (fun r : row => r !! c') a !! k = a !! k ≫= (fun r : row => r !! c').
Proof.
  intros Hr Hc. revert k. induction Hr as [|r a Hl Hr IH]; intros k; [done|].
  destruct (lookup_lt_is_Some_2 r c') as [x Hx]; [lia|].
  rewrite (omap_cons_Some _ _ _ _ Hx). destruct k; simpl; [done|apply IH].
Qed.

Lemma length_column c c' (a : ndarray) :
  rectangular c a -> (c' < c)%nat ->
  length (omap (fun r : row => r !! c') a) = length a.
Proof.
  intros Hr Hc. induction Hr as [|r a Hl Hr IH]; [done|].
  destruct (lookup_lt_is_Some_2 r c') as [x Hx]; [lia|].
  rewrite (omap_cons_Some _ _ _ _ Hx). exact (f_equal S IH).
Qed.

Lemma getitem_nat (a : ndarray) (k : nat) column c' x :
  norm_index (ncols a) column = Ok c' -> (k < nrows a)%nat ->
  a !! k ≫= (fun r : row => r !! c') = Some x ->
  getitem a (Z.of_nat k) column = Ok x.
Proof.
  intros Hc Hk Hx. unfold getitem. rewrite (norm_index_nat _ _ Hk), Hc. simpl.
  destruct (a !! k) as [r|]; simpl in Hx; [|done]. by rewrite Hx.
Qed.

Lemma first_non_zero_from_column_val_spec (a : ndarray) (column starting_row : Z) c' :
  rectangular (ncols a) a -> norm_index (ncols a) column = Ok c' ->
  0 <= starting_row ->
  exists r : Z,
    first_non_zero_from_column_val a column starting_row = Ok r /\
    ((r = -1 /\
      forall k : nat, starting_row <= Z.of_nat k < Z.of_nat (nrows a) ->
        exists x, getitem a (Z.of_nat k) column = Ok x /\ (abs x <=? 1e-5)%float = true) \/
     (starting_row <= r < Z.of_nat (nrows a) /\
      (exists x, getitem a r column = Ok x /\ (abs x <=? 1e-5)%float = false) /\
      forall k : nat, starting_row <= Z.of_nat k < r ->
        exists x, getitem a (Z.of_nat k) column = Ok x /\ (abs x <=? 1e-5)%float = true)).
Proof.
  intros Hr Hc Hs. unfold first_non_zero_from_column_val, slice_column.
  rewrite Hc. simpl.
  pose proof (norm_index_lt _ _ _ Hc) as Lc.
  set (s' := slice_start (nrows a) starting_row).
  assert (Es : s' = Z.to_nat (Z.min starting_row (Z.of_nat (nrows a)))).
  { unfold s', slice_start. by assert ((starting_row <? 0) = false) as -> by lia. }
  set (values := omap (fun r : row => r !! c') (drop s' a)).
  assert (Hv : forall k, values !! k = a !! (s' + k)%nat ≫= (fun r : row => r !! c')).
  { intros k. unfold values.
    rewrite (column_lookup (ncols a)); [by rewrite lookup_drop| |done].
    by apply Forall_drop. }
  assert (Hz : forall k : nat, (s' <= k < nrows a)%nat ->
            exists x, values !! (k - s')%nat = Some x /\ getitem a (Z.of_nat k) column = Ok x).
  { intros k [Hk1 Hk2]. destruct (lookup_lt_is_Some_2 a k Hk2) as [r Er].
    destruct (lookup_lt_is_Some_2 r c') as [x Ex].
    { by rewrite (rectangular_lookup _ _ _ _ Hr Er). }
    exists x. rewrite Hv. replace (s' + (k - s'))%nat with k by lia.
    rewrite Er. simpl. split; [done|].
    apply (getitem_nat a k column c'); [done|done|]. by rewrite Er. }
  eexists. split; [done|].
  destruct (first_non_zero_spec values 0 starting_row)
    as [[E Hall]|(k0 & x & Hk0 & Hx & E & Hall)].
  - left. split; [done|]. intros k Hk.
    destruct (Hz k) as (x & Hx1 & Hx2); [lia|].
    exists x. split; [done|]. by apply (Hall _ _ Hx1).
  - assert (Lk : (s' + k0 < nrows a)%nat).
    { rewrite Hv in Hk0. destruct (a !! (s' + k0)%nat) eqn:E'; [|done].
      by apply lookup_lt_Some in E'. }
    assert (Er : first_non_zero values 0 starting_row = Z.of_nat (s' + k0)) by lia.
    right. rewrite Er. split; [lia|]. split.
    + exists x. split; [|done].
      destruct (Hz (s' + k0)%nat) as (x' & Hx1 & Hx2); [lia|].
      replace (s' + k0 - s')%nat with k0 in Hx1 by lia. congruence.
    + intros k Hk. destruct (Hz k) as (x' & Hx1 & Hx2); [lia|].
      exists x'. split; [done|]. apply (Hall (k - s')%nat); [lia|done].
Qed.

(** C7, for a column index valid for [M] and a [starting_row] that
    is not negative: [get_index_first_non_zero_from_column] leaves
    the store as it is and returns the smallest row index
    [r >= starting_row] whose entry in that column exceeds [1e-5] in
    absolute value, and [-1] when every entry from [starting_row] to
    the last row is within [1e-5] of zero, in particular when
    [starting_row] is at or beyond the number of rows. *)
Theorem get_index_first_non_zero_from_column_spec
    (h : heap) (M : loc) (a : ndarray) (column starting_row : Z) :
  h !! M = Some a -> rectangular (ncols a) a ->
  - Z.of_nat (ncols a) <= column < Z.of_nat (ncols a) ->
  0 <= starting_row ->
  exists r : Z,
    get_index_first_non_zero_from_column M column starting_row h = (Ok r, h) /\
    ((r = -1 /\
      forall k : nat, starting_row <= Z.of_nat k < Z.of_nat (nrows a) ->
        exists x, getitem a (Z.of_nat k) column = Ok x /\ (abs x <=? 1e-5)%float = true) \/
     (starting_row <= r < Z.of_nat (nrows a) /\
      (exists x, getitem a r column = Ok x /\ (abs x <=? 1e-5)%float = false) /\
      forall k : nat, starting_row <= Z.of_nat k < r ->
        exists x, getitem a (Z.of_nat k) column = Ok x /\ (abs x <=? 1e-5)%float = true)) /\
    (Z.of_nat (nrows a) <= starting_row -> r = -1).
Proof.
  intros HM Hr Hc Hs.
  destruct (norm_index_valid _ _ Hc) as (c' & Ec & _).
  destruct (first_non_zero_from_column_val_spec a column starting_row c' Hr Ec Hs)
    as (r & Er & Hspec).
  exists r. rewrite (get_index_first_non_zero_from_column_refines _ _ _ _ _ HM), Er.
  split; [done|]. split; [done|].
  intros Hge. destruct Hspec as [[-> _]|[Hlt _]]; [done|lia].
Qed.

Lemma get_index_first_non_zero_from_column_spec_witness :
  get_index_first_non_zero_from_column 0%nat (-1) 2 [N_example] = (Ok 3, [N_example]).
Proof.
  destruct (get_index_first_non_zero_from_column_spec [N_example] 0%nat N_example (-1) 2)
    as (r & E & _ & _).
  - reflexivity.
  - repeat constructor.
  - simpl. lia.
  - lia.
  - rewrite E. vm_compute in E. by injection E as <-.
Defined.

(** C7 does not extend to a negative [starting_row]: the slice
    [M[-5:, 0]] of a three-row array is clipped to the whole column,
    the first entry is found at [i = 0], and [i + starting_row = -5]
    is returned, which is neither the not-found marker nor a row index
    of the array (the non-zero entry is in row 0). *)
Lemma get_index_first_non_zero_from_column_negative_start :
  let a := [ [5]; [0]; [0] ]%float in
  get_index_first_non_zero_from_column 0%nat 0 (-5) [a] = (Ok (-5), [a]) /\
  getitem a (-5) 0 = Raise IndexError /\
  getitem a 0 0 = Ok 5%float /\ (abs 5 <=? 1e-5)%float = false.
Proof. vm_compute. repeat split. Qed.

(** ** Loops and rows: the store reading refines the value reading *)

Lemma evolves_refl base h : evolves base h h.
Proof. by split. Qed.

Lemma evolves_trans base h1 h2 h3 :
  evolves base h1 h2 -> evolves base h2 h3 -> evolves base h1 h3.
Proof. intros [E1 L1] [E2 L2]. split; [congruence|lia]. Qed.

Lemma evolves_insert base (h : heap) l (a : ndarray) :
  (base <= l)%nat -> evolves base h (<[l := a]> h).
Proof. intros Hl. split; [by apply take_insert_ge|by rewrite length_insert]. Qed.

Lemma evolves_app base (h t : heap) :
  (base <= length h)%nat -> evolves base h (h ++ t).
Proof. intros Hl. split; [by rewrite take_app_le|rewrite length_app; lia]. Qed.

Lemma evolves_lookup base h h' l (x : ndarray) :
  evolves base h h' -> (l < base)%nat -> h !! l = Some x -> h' !! l = Some x.
Proof.
  intros [E _] Hl Hx.
  rewrite <- (lookup_take_lt h' base l Hl), E. by rewrite lookup_take_lt.
Qed.

Lemma refines_bind base (m : py loc) (k : loc -> py loc)
    (r : res ndarray) (kv : ndarray -> res ndarray) h :
  refines base m r h ->
  (forall M' h' a', (base <= M')%nat -> h' !! M' = Some a' -> refines base (k M') (kv a') h') ->
  refines base (m ≫= k) (res_bind r kv) h.
Proof.
  intros (h1 & Ev1 & Hm) Hk. destruct r as [a'|e]; simpl.
  - destruct Hm as (M' & Em & Hb & Ha).
    destruct (Hk M' h1 a' Hb Ha) as (h2 & Ev2 & Hk2).
    exists h2. split; [by eapply evolves_trans|].
    by rewrite (bind_ok _ _ _ _ _ Em).
  - exists h1. split; [done|]. by rewrite (bind_raise _ _ _ _ _ Hm).
Qed.

Lemma for_each_refines {X} base (xs : list X)
    (body : X -> loc -> py loc) (body_val : X -> ndarray -> res ndarray) :
  (forall x M h a, (base <= M)%nat -> h !! M = Some a ->
                   refines base (body x M) (body_val x a) h) ->
  forall M h a, (base <= M)%nat -> h !! M = Some a ->
                refines base (for_each xs body M) (fold_res xs body_val a) h.
Proof.
  intros Hbody. induction xs as [|x xs IH]; intros M h a Hb Ha; simpl.
  - exists h. split; [apply evolves_refl|]. by exists M.
  - apply refines_bind; [by apply Hbody|]. intros M' h' a' Hb' Ha'. by apply IH.
Qed.

Lemma store_lookup (h : heap) M (a a' : ndarray) :
  h !! M = Some a -> <[M := a']> h !! M = Some a'.
Proof. intros Ha. apply list_lookup_insert_eq. by eapply lookup_lt_Some. Qed.

Lemma eliminate_row_run row j M h a :
  h !! M = Some a ->
  eliminate_row row j M h
  = match eliminate_row_val row j a with
    | Ok a' => (Ok M, <[M := a']> h)
    | Raise e => (Raise e, h)
    end.
Proof.
  intros Ha. unfold eliminate_row, eliminate_row_val.
  rewrite (bind_ok _ _ _ _ _ (deref_ok _ _ _ Ha)), lift_bind.
  destruct (getitem a (Z.of_nat j) (Z.of_nat row)) as [v|e]; simpl; [|done].
  rewrite lift_bind. destruct (getrow a (Z.of_nat j)) as [rj|e]; simpl; [|done].
  rewrite lift_bind. destruct (getrow a (Z.of_nat row)) as [rr|e]; simpl; [|done].
  rewrite lift_bind. by destruct (setrow a (Z.of_nat j) _) as [a'|e].
Qed.

Lemma eliminate_row_refines base row j M h a :
  (base <= M)%nat -> h !! M = Some a ->
  refines base (eliminate_row row j M) (eliminate_row_val row j a) h.
Proof.
  intros Hb Ha. unfold refines. rewrite (eliminate_row_run _ _ _ _ _ Ha).
  destruct (eliminate_row_val row j a) as [a'|e].
  - exists (<[M := a']> h). split; [by apply evolves_insert|].
    exists M. split; [done|]. split; [done|]. by eapply store_lookup.
  - exists h. split; [apply evolves_refl|done].
Qed.

Lemma normalize_row_run row pivot M h a :
  h !! M = Some a ->
  normalize_row M row pivot h
  = match normalize_row_val a row pivot with
    | Ok a' => (Ok tt, <[M := a']> h)
    | Raise e => (Raise e, h)
    end.
Proof.
  intros Ha. unfold normalize_row, normalize_row_val.
  rewrite (bind_ok _ _ _ _ _ (deref_ok _ _ _ Ha)), lift_bind.
  destruct (getrow a (Z.of_nat row)) as [r|e]; simpl; [|done].
  rewrite lift_bind. by destruct (setrow a (Z.of_nat row) _) as [a'|e].
Qed.

(** The pivot choice: a skip leaves the store alone; otherwise the
    array to go on with is the callee's own. *)
Lemma select_pivot_refines base row M h a :
  (base <= M)%nat -> h !! M = Some a ->
  exists h', evolves base h h' /\
    match select_pivot_val a row with
    | Ok None => select_pivot M row h = (Ok None, h') /\ h' = h
    | Ok (Some (a1, pivot)) =>
        exists M1, select_pivot M row h = (Ok (Some (M1, pivot)), h') /\
                   (base <= M1)%nat /\ h' !! M1 = Some a1
    | Raise e => select_pivot M row h = (Raise e, h')
    end.
Proof.
  intros Hb Ha. unfold select_pivot, select_pivot_val.
  assert (Lh : (base <= length h)%nat).
  { apply lookup_lt_Some in Ha. lia. }
  rewrite (bind_ok _ _ _ _ _ (deref_ok _ _ _ Ha)), lift_bind.
  destruct (getitem a (Z.of_nat row) (Z.of_nat row)) as [pc|e]; simpl;
    [|exists h; split; [apply evolves_refl|done]].
  destruct (np_isclose pc 0 default_rtol default_atol);
    [|exists h; split; [apply evolves_refl|]; exists M; done].
  rewrite bind_run, (get_index_first_non_zero_from_column_refines _ _ _ _ _ Ha).
  destruct (first_non_zero_from_column_val a (Z.of_nat row) (Z.of_nat row + 1))
    as [s|e]; simpl; [|exists h; split; [apply evolves_refl|done]].
  destruct (s =? -1); [exists h; split; [apply evolves_refl|done]|].
  rewrite bind_run, (swap_rows_refines _ _ _ _ _ Ha).
  destruct (swap_rows_val a (Z.of_nat row) s) as [a1|e]; simpl.
  2: { exists (h ++ [a]). split; [by apply evolves_app|done]. }
  rewrite (bind_ok _ _ _ _ _ (deref_ok _ _ _ (lookup_fresh h a1))), lift_bind.
  exists (h ++ [a1]). split; [by apply evolves_app|].
  destruct (getitem a1 (Z.of_nat row) (Z.of_nat row)) as [pivot|e]; simpl; [|done].
  exists (length h). split; [done|]. split; [done|apply lookup_fresh].
Qed.

Lemma reduce_row_refines base num_rows row M h a :
  (base <= M)%nat -> h !! M = Some a ->
  refines base (reduce_row num_rows row M) (reduce_row_val num_rows row a) h.
Proof.
  intros Hb Ha. unfold refines, reduce_row, reduce_row_val.
  destruct (select_pivot_refines base row M h a Hb Ha) as (h1 & Ev1 & Hsel).
  destruct (select_pivot_val a row) as [[[a1 pivot]|]|e]; simpl.
  - destruct Hsel as (M1 & Es & Hb1 & Ha1).
    destruct (normalize_row_val a1 row pivot) as [a2|e] eqn:En; simpl.
    + destruct (for_each_refines base (range (row + 1) num_rows)
                  (eliminate_row row) (eliminate_row_val row)
                  (eliminate_row_refines base row)
                  M1 (<[M1 := a2]> h1) a2 Hb1 (store_lookup _ _ _ _ Ha1))
        as (h3 & Ev3 & Hloop).
      exists h3. split.
      { eapply evolves_trans; [exact Ev1|].
        eapply evolves_trans; [|exact Ev3]. by apply evolves_insert. }
      rewrite bind_run, Es, bind_run, (normalize_row_run _ _ _ _ _ Ha1), En.
      exact Hloop.
    + exists h1. split; [done|].
      by rewrite bind_run, Es, bind_run, (normalize_row_run _ _ _ _ _ Ha1), En.
  - destruct Hsel as [Es ->]. exists h. split; [done|].
    exists M. by rewrite bind_run, Es.
  - exists h1. split; [done|]. by rewrite bind_run, Hsel.
Qed.

Section RowEchelonForm.

Variable det : ndarray -> float.

Lemma linalg_det_run h A a :
  h !! A = Some a ->
  linalg_det det A h = if is_square a then (Ok (det a), h) else (Raise LinAlgError, h).
Proof.
  intros HA. unfold linalg_det. rewrite (bind_ok _ _ _ _ _ (deref_ok _ _ _ HA)).
  by destruct (is_square a).
Qed.

Lemma row_echelon_form_not_square h A B a :
  h !! A = Some a -> is_square a = false ->
  row_echelon_form det A B h = (Raise LinAlgError, h).
Proof.
  intros HA Hsq. unfold row_echelon_form.
  by rewrite bind_run, (linalg_det_run _ _ _ HA), Hsq.
Qed.

Lemma row_echelon_form_singular h A B a :
  h !! A = Some a -> is_square a = true ->
  np_isclose (det a) 0 default_rtol default_atol = true ->
  row_echelon_form det A B h = (Ok (VStr singular_system), h).
Proof.
  intros HA Hsq Hd. unfold row_echelon_form.
  by rewrite bind_run, (linalg_det_run _ _ _ HA), Hsq, Hd.
Qed.

Lemma row_echelon_form_reduce h A B a b :
  h !! A = Some a -> h !! B = Some b -> is_square a = true ->
  np_isclose (det a) 0 default_rtol default_atol = false ->
  exists h', evolves (length h) h h' /\
    match reduced_val a b with
    | Ok m => exists l, row_echelon_form det A B h = (Ok (VArr l), h') /\
                        (length h <= l)%nat /\ h' !! l = Some m
    | Raise e => row_echelon_form det A B h = (Raise e, h')
    end.
Proof.
  intros HA HB Hsq Hd.
  set (h1 := h ++ [a]). set (h2 := h1 ++ [a]).
  set (h3 := h2 ++ [b]). set (h4 := h3 ++ [b]).
  assert (E1 : (A ← astype_float64 A; ndarray_copy A) h = (Ok (length h1), h2)).
  { rewrite bind_run. unfold astype_float64.
    rewrite (bind_ok _ _ _ _ _ (deref_ok _ _ _ HA)). simpl.
    apply ndarray_copy_ok, lookup_fresh. }
  assert (HB2 : h2 !! B = Some b) by (by apply lookup_old, lookup_old).
  assert (E2 : (B ← astype_float64 B; ndarray_copy B) h2 = (Ok (length h3), h4)).
  { rewrite bind_run. unfold astype_float64.
    rewrite (bind_ok _ _ _ _ _ (deref_ok _ _ _ HB2)). simpl.
    apply ndarray_copy_ok, lookup_fresh. }
  assert (HA4 : h4 !! length h1 = Some a).
  { apply lookup_old, lookup_old, lookup_fresh. }
  assert (HB4 : h4 !! length h3 = Some b) by apply lookup_fresh.
  assert (L4 : (length h <= length h4)%nat).
  { unfold h4, h3, h2, h1. rewrite !length_app. lia. }
  assert (Ev4 : evolves (length h) h h4).
  { unfold h4, h3, h2, h1. rewrite <- !app_assoc. by apply evolves_app. }
  assert (Eaug : augmented_matrix (length h1) (length h3) h4
                 = match hstack a b with
                   | Ok m => (Ok (length h4), h4 ++ [m])
                   | Raise e => (Raise e, h4)
                   end).
  { unfold augmented_matrix.
    rewrite (bind_ok _ _ _ _ _ (deref_ok _ _ _ HA4)).
    rewrite (bind_ok _ _ _ _ _ (deref_ok _ _ _ HB4)), lift_bind.
    by destruct (hstack a b). }
  assert (Erun : row_echelon_form det A B h
                 = match hstack a b with
                   | Ok m =>
                       (M ← for_each (range 0 (nrows a)) (reduce_row (nrows a)) (length h4);
                        mret (VArr M)) (h4 ++ [m])
                   | Raise e => (Raise e, h4)
                   end).
  { unfold row_echelon_form.
    rewrite bind_run, (linalg_det_run _ _ _ HA), Hsq, Hd.
    rewrite bind_run, E1, bind_run, E2, bind_run, Eaug.
    destruct (hstack a b) as [m|e]; [|done].
    unfold len. rewrite bind_run.
    by rewrite (bind_ok _ _ _ _ _ (deref_ok _ _ _ (lookup_old _ m _ _ HA4))). }
  rewrite Erun. unfold reduced_val, reduce_rows_val.
  destruct (hstack a b) as [m|e]; simpl; [|by exists h4].
  destruct (for_each_refines (length h) (range 0 (nrows a))
              (reduce_row (nrows a)) (reduce_row_val (nrows a))
              (fun x => reduce_row_refines (length h) (nrows a) x)
              (length h4) (h4 ++ [m]) m L4 (lookup_fresh h4 m))
    as (h5 & Ev5 & Hloop).
  exists h5. split.
  { eapply evolves_trans; [exact Ev4|].
    eapply evolves_trans; [|exact Ev5]. apply evolves_app. lia. }
  destruct (fold_res (range 0 (nrows a)) (reduce_row_val (nrows a)) m) as [m'|e].
  - destruct Hloop as (l & El & Hl & Hm). exists l.
    by rewrite (bind_ok _ _ _ _ _ El).
  - by rewrite (bind_raise _ _ _ _ _ Hloop).
Qed.

End RowEchelonForm.

(** ** Rows of a well-shaped array *)

Lemma shape_ncols n c (a : ndarray) : shape n c a -> (0 < n)%nat -> ncols a = c.
Proof. intros [Hn Hr] Hpos. apply ncols_rectangular; [done|lia]. Qed.

Lemma shape_insert n c (a : ndarray) i r :
  shape n c a -> length r = c -> shape n c (<[i := r]> a).
Proof.
  intros [Hn Hr] Hl. split; [unfold nrows in *; by rewrite length_insert|].
  by apply rectangular_insert.
Qed.

Lemma shape_lookup n c (a : ndarray) i :
  shape n c a -> (i < n)%nat -> exists r, a !! i = Some r /\ length r = c.
Proof.
  intros [Hn Hr] Hi. destruct (lookup_lt_is_Some_2 a i) as [r Er]; [unfold nrows in Hn; lia|].
  exists r. split; [done|]. by eapply rectangular_lookup.
Qed.

Lemma shape_entry n c (a : ndarray) i j :
  shape n c a -> (i < n)%nat -> (j < c)%nat ->
  exists r x, a !! i = Some r /\ length r = c /\ r !! j = Some x.
Proof.
  intros Hs Hi Hj. destruct (shape_lookup _ _ _ _ Hs Hi) as (r & Er & Lr).
  destruct (lookup_lt_is_Some_2 r j) as [x Ex]; [lia|]. by exists r, x.
Qed.

Lemma getrow_nat (a : ndarray) (i : nat) r :
  a !! i = Some r -> getrow a (Z.of_nat i) = Ok r.
Proof.
  intros Er. apply (getrow_ok a _ i); [|done].
  apply norm_index_nat. by eapply lookup_lt_Some.
Qed.

Lemma getitem_nat2 n c (a : ndarray) (i j : nat) r x :
  shape n c a -> (j < c)%nat -> a !! i = Some r -> r !! j = Some x ->
  getitem a (Z.of_nat i) (Z.of_nat j) = Ok x.
Proof.
  intros Hs Hj Er Ex. pose proof (lookup_lt_Some _ _ _ Er) as Li.
  apply (getitem_ok a _ _ i j r); [by apply norm_index_nat| |done|done].
  apply norm_index_nat. rewrite (shape_ncols n c); [done|done|].
  destruct Hs as [Hn _]. unfold nrows in Hn. lia.
Qed.

Lemma setrow_nat n c (a : ndarray) (i : nat) r :
  shape n c a -> (i < n)%nat -> length r = c ->
  setrow a (Z.of_nat i) r = Ok (<[i := r]> a).
Proof.
  intros Hs Hi Hl. unfold setrow.
  rewrite norm_index_nat by (destruct Hs as [-> _]; done). simpl.
  rewrite (shape_ncols n c) by (done || lia). rewrite Hl. by rewrite Nat.eqb_refl.
Qed.

Lemma normalize_row_val_ok n c (a : ndarray) row r pivot :
  shape n c a -> a !! row = Some r ->
  normalize_row_val a row pivot = Ok (<[row := map (fun x => (x / pivot)%float) r]> a).
Proof.
  intros Hs Er. unfold normalize_row_val. rewrite (getrow_nat _ _ _ Er). simpl.
  pose proof (lookup_lt_Some _ _ _ Er) as Li.
  apply (setrow_nat n c); [done|destruct Hs as [<- _]; done|].
  rewrite length_map. destruct Hs as [_ Hr]. by eapply rectangular_lookup.
Qed.

Lemma eliminate_row_val_ok n c (a : ndarray) row j rj rr v :
  shape n c a -> (row < c)%nat ->
  a !! j = Some rj -> a !! row = Some rr -> rj !! row = Some v ->
  eliminate_row_val row j a
  = Ok (<[j := zip_with (fun x y => (x - v * y)%float) rj rr]> a).
Proof.
  intros Hs Hc Ej Er Ev. unfold eliminate_row_val.
  rewrite (getitem_nat2 n c a j row rj v Hs Hc Ej Ev). simpl.
  rewrite (getrow_nat _ _ _ Ej), (getrow_nat _ _ _ Er). simpl.
  pose proof (lookup_lt_Some _ _ _ Ej) as Lj.
  apply (setrow_nat n c); [done|destruct Hs as [<- _]; done|].
  destruct Hs as [_ Hr]. rewrite length_zip_with.
  rewrite (rectangular_lookup _ _ _ _ Hr Ej), (rectangular_lookup _ _ _ _ Hr Er). lia.
Qed.

Lemma getitem_nat_inv n c (a : ndarray) (i j : nat) x :
  shape n c a -> (i < n)%nat -> (j < c)%nat ->
  getitem a (Z.of_nat i) (Z.of_nat j) = Ok x ->
  exists r, a !! i = Some r /\ r !! j = Some x.
Proof.
  intros Hs Hi Hj Hg. destruct (shape_entry _ _ _ _ _ Hs Hi Hj) as (r & x' & Er & _ & Ex).
  rewrite (getitem_nat2 n c a i j r x' Hs Hj Er Ex) in Hg. injection Hg as <-. by exists r.
Qed.

(** The three ways the pivot choice of row [row] can go on a
    well-shaped array. *)
Lemma select_pivot_val_cases n c (a : ndarray) row :
  shape n c a -> (row < n)%nat -> (row < c)%nat ->
  exists r pc, a !! row = Some r /\ r !! row = Some pc /\
    ((np_isclose pc 0 default_rtol default_atol = false /\
      select_pivot_val a row = Ok (Some (a, pc))) \/
     (np_isclose pc 0 default_rtol default_atol = true /\
      select_pivot_val a row = Ok None /\
      forall j rj y, (row < j)%nat -> a !! j = Some rj -> rj !! row = Some y ->
                     (abs y <=? 1e-5)%float = true) \/
     (np_isclose pc 0 default_rtol default_atol = true /\
      exists s rs p, (row < s < n)%nat /\ a !! s = Some rs /\ rs !! row = Some p /\
        (abs p <=? 1e-5)%float = false /\
        (forall j rj y, (row < j < s)%nat -> a !! j = Some rj -> rj !! row = Some y ->
                        (abs y <=? 1e-5)%float = true) /\
        select_pivot_val a row = Ok (Some (<[s := r]> (<[row := rs]> a), p)))).
Proof.
  intros Hs Hn Hc.
  destruct (shape_entry _ _ _ _ _ Hs Hn Hc) as (r & pc & Er & Lr & Epc).
  exists r, pc. split; [done|]. split; [done|].
  unfold select_pivot_val. rewrite (getitem_nat2 n c a row row r pc Hs Hc Er Epc). simpl.
  destruct (np_isclose pc 0 default_rtol default_atol); [|by left].
  right.
  assert (Hnc : ncols a = c) by (apply (shape_ncols n); [done|lia]).
  assert (Hna : nrows a = n) by apply Hs.
  destruct (first_non_zero_from_column_val_spec a (Z.of_nat row) (Z.of_nat row + 1) row)
    as (s & Es & Hspec).
  { rewrite Hnc. apply Hs. }
  { rewrite Hnc. by apply norm_index_nat. }
  { lia. }
  rewrite Es. simpl. destruct Hspec as [[-> Hall]|(Hrange & (p & Hp & Hnz) & Hall)].
  - left. split; [done|]. split; [done|]. intros j rj y Hj Ej Ey.
    pose proof (lookup_lt_Some _ _ _ Ej) as Lj.
    destruct (Hall j) as (x & Hx & Hz); [unfold nrows in *; lia|].
    rewrite (getitem_nat2 n c a j row rj y Hs Hc Ej Ey) in Hx. by injection Hx as <-.
  - right. split; [done|].
    assert ((s =? -1) = false) as -> by lia.
    rewrite Hna in Hrange.
    assert (Es' : s = Z.of_nat (Z.to_nat s)) by lia.
    set (s' := Z.to_nat s) in *. rewrite Es' in Hp.
    destruct (getitem_nat_inv n c a s' row p Hs) as (rs & Ers & Ep); [lia|done|done|].
    exists s', rs, p. split; [lia|]. split; [done|]. split; [done|]. split; [done|].
    split.
    { intros j rj y Hj Ej Ey. destruct (Hall j) as (x & Hx & Hz); [lia|].
      rewrite (getitem_nat2 n c a j row rj y Hs Hc Ej Ey) in Hx. by injection Hx as <-. }
    rewrite Es'.
    rewrite (swap_rows_val_ok a (Z.of_nat row) (Z.of_nat s') row s' r rs).
    + simpl.
      assert (Hs1 : shape n c (<[s' := r]> (<[row := rs]> a))).
      { apply shape_insert; [apply shape_insert|]; [done| |done].
        destruct Hs as [_ Hr]. by eapply rectangular_lookup. }
      rewrite (getitem_nat2 n c _ row row rs p Hs1 Hc); [done| |done].
      rewrite list_lookup_insert_ne by lia.
      apply list_lookup_insert_eq. by eapply lookup_lt_Some.
    + rewrite Hnc. apply Hs.
    + rewrite Hna. by apply norm_index_nat.
    + rewrite Hna. apply norm_index_nat. lia.
    + done.
    + done.
Qed.

(** ** One row of the reduction on a well-shaped array *)

Lemma fold_res_app {X S} (xs ys : list X) (body : X -> S -> res S) (acc : S) :
  fold_res (xs ++ ys) body acc = res_bind (fold_res xs body acc) (fold_res ys body).
Proof.
  revert acc. induction xs as [|x xs IH]; intros acc; simpl; [done|].
  destruct (body x acc); simpl; [apply IH|done].
Qed.

(** The inner loop over the rows [row+1 .. row+d]: each of them has
    had its multiple of row [row] subtracted, every other row is
    untouched. *)
Lemma eliminate_rows_val_ok n c (a : ndarray) row rr d :
  shape n c a -> (row < c)%nat -> a !! row = Some rr -> (row + 1 + d <= n)%nat ->
  exists a', fold_res (seq (row + 1) d) (eliminate_row_val row) a = Ok a' /\
    shape n c a' /\
    (forall j, (j <= row \/ row + 1 + d <= j)%nat -> a' !! j = a !! j) /\
    (forall j rj, (row < j < row + 1 + d)%nat -> a !! j = Some rj ->
       exists v, rj !! row = Some v /\
         a' !! j = Some (zip_with (fun x y => (x - v * y)%float) rj rr)).
Proof.
  intros Hs Hc Er. induction d as [|d IH]; intros Hd.
  - exists a. split; [done|]. split; [done|]. split; [done|]. intros j rj Hj. lia.
  - destruct IH as (a1 & E1 & Hs1 & Hout & Hin); [lia|].
    rewrite seq_S, fold_res_app, E1. simpl.
    set (j0 := (row + 1 + d)%nat).
    destruct (shape_entry n c a j0 row Hs) as (rj & v & Ej & Lj & Ev); [lia|done|].
    assert (Ej1 : a1 !! j0 = Some rj) by (rewrite Hout; [done|lia]).
    assert (Er1 : a1 !! row = Some rr) by (rewrite Hout; [done|lia]).
    rewrite (eliminate_row_val_ok n c a1 row j0 rj rr v Hs1 Hc Ej1 Er1 Ev).
    eexists. split; [done|]. split.
    { apply shape_insert; [done|]. rewrite length_zip_with.
      destruct Hs as [_ Hr]. rewrite (rectangular_lookup _ _ _ _ Hr Er). lia. }
    split.
    + intros j Hj. rewrite list_lookup_insert_ne by (unfold j0; lia).
      apply Hout. lia.
    + intros j rj' Hj Ej'. destruct (decide (j = j0)) as [->|Hne].
      * exists v. assert (rj' = rj) as -> by congruence. split; [done|].
        apply list_lookup_insert_eq. by eapply lookup_lt_Some.
      * rewrite list_lookup_insert_ne by done. apply Hin; [unfold j0 in Hne; lia|done].
Qed.

(** Normalisation and elimination, once the pivot [pivot] of row [row]
    is chosen in [a1]. *)
Lemma reduce_after_pivot n c (a1 : ndarray) row pivot r1 :
  shape n c a1 -> (row < n)%nat -> (row < c)%nat -> a1 !! row = Some r1 ->
  exists a',
    res_bind (normalize_row_val a1 row pivot)
      (fold_res (range (row + 1) n) (eliminate_row_val row)) = Ok a' /\
    shape n c a' /\
    a' !! row = Some (map (fun x => (x / pivot)%float) r1) /\
    (forall j, (j < row)%nat -> a' !! j = a1 !! j) /\
    (forall j rj, (row < j < n)%nat -> a1 !! j = Some rj ->
       exists v, rj !! row = Some v /\
         a' !! j = Some (zip_with (fun x y => (x - v * y)%float) rj
                           (map (fun x => (x / pivot)%float) r1))).
Proof.
  intros Hs Hn Hc Er. rewrite (normalize_row_val_ok n c a1 row r1 pivot Hs Er). simpl.
  set (rr := map (fun x => (x / pivot)%float) r1).
  set (a2 := <[row := rr]> a1).
  assert (Lrr : length rr = c).
  { unfold rr. rewrite length_map. destruct Hs as [_ Hr]. by eapply rectangular_lookup. }
  assert (Hs2 : shape n c a2) by (by apply shape_insert).
  assert (Er2 : a2 !! row = Some rr).
  { apply list_lookup_insert_eq. by eapply lookup_lt_Some. }
  destruct (eliminate_rows_val_ok n c a2 row rr (n - (row + 1)) Hs2 Hc Er2)
    as (a' & E & Hs' & Hout & Hin); [lia|].
  exists a'. unfold range. split; [done|]. split; [done|]. split.
  { rewrite Hout by lia. done. }
  split.
  - intros j Hj. rewrite Hout by lia. unfold a2. by rewrite list_lookup_insert_ne by lia.
  - intros j rj Hj Ej. apply Hin; [lia|].
    unfold a2. by rewrite list_lookup_insert_ne by lia.
Qed.

(** The body of the outer loop on a well-shaped array: it never
    raises, and keeps the shape. *)
Lemma reduce_row_val_shape n c (a : ndarray) row :
  shape n c a -> (row < n)%nat -> (row < c)%nat ->
  exists a', reduce_row_val n row a = Ok a' /\ shape n c a'.
Proof.
  intros Hs Hn Hc. unfold reduce_row_val.
  destruct (select_pivot_val_cases n c a row Hs Hn Hc)
    as (r & pc & Er & Epc & [[_ E]|[(_ & E & _)|(_ & s & rs & p & Hsn & Ers & _ & _ & _ & E)]]);
    rewrite E; simpl.
  - destruct (reduce_after_pivot n c a row pc r Hs Hn Hc Er) as (a' & E' & Hs' & _).
    by exists a'.
  - by exists a.
  - assert (Hs1 : shape n c (<[s := r]> (<[row := rs]> a))).
    { destruct Hs as [Hna Hr].
      apply shape_insert; [apply shape_insert|]; [done| |]; by eapply rectangular_lookup. }
    assert (E1 : <[s := r]> (<[row := rs]> a) !! row = Some rs).
    { rewrite list_lookup_insert_ne by lia.
      apply list_lookup_insert_eq. by eapply lookup_lt_Some. }
    destruct (reduce_after_pivot n c _ row p rs Hs1 Hn Hc E1) as (a' & E' & Hs' & _).
    by exists a'.
Qed.

Lemma reduce_rows_val_shape n c (rows : list nat) (a : ndarray) :
  shape n c a -> Forall (fun row => (row < n)%nat /\ (row < c)%nat) rows ->
  exists a', reduce_rows_val n rows a = Ok a' /\ shape n c a'.
Proof.
  intros Hs Hrows. revert a Hs. induction Hrows as [|row rows [Hn Hc] _ IH]; intros a Hs.
  - by exists a.
  - unfold reduce_rows_val. simpl.
    destruct (reduce_row_val_shape n c a row Hs Hn Hc) as (a1 & E1 & Hs1).
    rewrite E1. simpl. by apply IH.
Qed.

Lemma range_lt a b : Forall (fun i => (i < b)%nat) (range a b).
Proof. unfold range. apply Forall_forall. intros i Hi. apply list_elem_of_In, in_seq in Hi. lia. Qed.

Lemma is_square_shape n (a : ndarray) : shape n n a -> is_square a = true.
Proof.
  intros [Hn Hr]. unfold is_square. apply forallb_forall. intros r Hin.
  apply Nat.eqb_eq. rewrite Hn. apply list_elem_of_In in Hin.
  by apply (proj1 (Forall_forall _ _) Hr).
Qed.

(** On an [n x n] array and an [n x k] array the reduction past the
    determinant test never raises: it yields an [n x (n+k)] array. *)
Lemma reduced_val_shape n k (a b : ndarray) :
  shape n n a -> shape n k b ->
  exists m, reduced_val a b = Ok m /\ shape n (n + k) m.
Proof.
  intros [Hna Hra] [Hnb Hrb]. unfold reduced_val, hstack.
  rewrite Hna, Hnb, Nat.eqb_refl. simpl.
  apply reduce_rows_val_shape.
  - split; [|by apply zip_with_app_rect].
    unfold nrows in *. rewrite length_zip_with. lia.
  - eapply Forall_impl; [apply range_lt|]. simpl. lia.
Qed.

(** ** The singular marker and the missing back substitution *)

Lemma gaussian_elimination_run det h A B :
  gaussian_elimination det A B h
  = match row_echelon_form det A B h with
    | (Ok (VStr s), h') => (Ok (VStr s), h')
    | (Ok (VArr _), h') => (Raise (NameError "back_substitution"), h')
    | (Raise e, h') => (Raise e, h')
    end.
Proof.
  unfold gaussian_elimination. rewrite bind_run.
  by destruct (row_echelon_form det A B h) as [[[s|l]|e] h'].
Qed.

(** C2, with the tolerance the determinant test has.  The test is
    [np.isclose(np.linalg.det(A), 0)], without [atol]: it holds exactly
    when the determinant is within [1e-8] of zero.  When it is,
    [row_echelon_form(A, B)] returns the string ['singular system']
    with the store untouched (no copy made, no augmented array built,
    no row reduced), and [gaussian_elimination(A, B)] returns that same
    string, again with the store untouched and without reaching the
    call of [back_substitution]: the result is the marker, not an
    array.  When the determinant is beyond [1e-8], however small,
    neither function returns the marker. *)
Theorem singular_system_marker
    (det : ndarray -> float) (h : heap) (A B : loc) (a : ndarray) :
  h !! A = Some a -> is_square a = true ->
  ((abs (det a) <=? 1e-8)%float = true ->
   row_echelon_form det A B h = (Ok (VStr "singular system"), h) /\
   gaussian_elimination det A B h = (Ok (VStr "singular system"), h)) /\
  (forall b : ndarray, h !! B = Some b ->
   (abs (det a) <=? 1e-8)%float = false ->
   forall (s : string) (h' : heap),
     row_echelon_form det A B h <> (Ok (VStr s), h') /\
     gaussian_elimination det A B h <> (Ok (VStr s), h')).
Proof.
  intros HA Hsq. split.
  - intros Hd. rewrite <- isclose_zero_default in Hd.
    pose proof (row_echelon_form_singular det h A B a HA Hsq Hd) as E.
    split; [exact E|]. by rewrite gaussian_elimination_run, E.
  - intros b HB Hd s h'. rewrite <- isclose_zero_default in Hd.
    destruct (row_echelon_form_reduce det h A B a b HA HB Hsq Hd) as (h1 & _ & Hrun).
    rewrite gaussian_elimination_run.
    destruct (reduced_val a b) as [m|e].
    + destruct Hrun as (l & El & _). rewrite El. split; discriminate.
    + rewrite Hrun. split; discriminate.
Qed.

Lemma singular_system_marker_witness :
  let h := [ [[1; 2]; [2; 4]]; [[1]; [2]] ]%float in
  (row_echelon_form det_lu 0%nat 1%nat h = (Ok (VStr "singular system"), h) /\
   gaussian_elimination det_lu 0%nat 1%nat h = (Ok (VStr "singular system"), h)) /\
  row_echelon_form det_lu 0%nat 1%nat [A_small; B_small]
  <> (Ok (VStr "singular system"), [A_small; B_small]).
Proof.
  intros h. split.
  - refine (proj1 (singular_system_marker det_lu h 0%nat 1%nat
                     [[1; 2]; [2; 4]]%float _ _) _).
    + reflexivity.
    + reflexivity.
    + vm_compute. reflexivity.
  - refine (proj1 (proj2 (singular_system_marker det_lu [A_small; B_small] 0%nat 1%nat
                            A_small _ _) B_small _ _ _ _)).
    + reflexivity.
    + reflexivity.
    + reflexivity.
    + vm_compute. reflexivity.
Defined.

(** C2 does not hold for every determinant the tolerance [1e-5] takes
    for zero: a determinant of [1e-6] is within [1e-5] of zero, and
    [row_echelon_form] reduces the system and returns an array, after
    which [gaussian_elimination] raises. *)
Lemma determinant_of_1e_6_is_not_singular :
  (abs (det_lu A_small) <=? 1e-5)%float = true /\
  (exists h', row_echelon_form det_lu 0%nat 1%nat [A_small; B_small]
              = (Ok (VArr 6%nat), h')) /\
  (exists h', gaussian_elimination det_lu 0%nat 1%nat [A_small; B_small]
              = (Raise (NameError "back_substitution"), h')) /\
  forall det : ndarray -> float,
    (abs (det A_small) <=? 1e-5)%float = true ->
    (abs (det A_small) <=? 1e-8)%float = false ->
    exists (l : loc) (h' : heap),
      row_echelon_form det 0%nat 1%nat [A_small; B_small] = (Ok (VArr l), h').
Proof.
  split; [vm_compute; reflexivity|].
  split; [eexists; vm_compute; reflexivity|].
  split; [eexists; vm_compute; reflexivity|].
  intros det _ Hd. rewrite <- isclose_zero_default in Hd.
  destruct (row_echelon_form_reduce det [A_small; B_small] 0%nat 1%nat A_small B_small)
    as (h' & _ & Hrun); [reflexivity|reflexivity|reflexivity|exact Hd|].
  assert (Em : reduced_val A_small B_small = Ok [ [1; 1000000] ]%float)
    by (vm_compute; reflexivity).
  rewrite Em in Hrun. destruct Hrun as (l & El & _). by exists l, h'.
Qed.

(** C3: whenever [row_echelon_form(A, B)] returns an array,
    [gaussian_elimination(A, B)] raises [NameError] for the name
    [back_substitution], which no cell of the notebook binds; no
    solution vector is produced. *)
Theorem gaussian_elimination_name_error
    (det : ndarray -> float) (h h' : heap) (A B : loc) (l : loc) :
  row_echelon_form det A B h = (Ok (VArr l), h') ->
  gaussian_elimination det A B h = (Raise (NameError "back_substitution"), h') /\
  ~ In "back_substitution"%string notebook_names.
Proof.
  intros E. split.
  - by rewrite gaussian_elimination_run, E.
  - unfold notebook_names. simpl. intros H.
    repeat (destruct H as [H|H]; [discriminate H|]). exact H.
Qed.

Lemma gaussian_elimination_name_error_witness :
  exists h', gaussian_elimination det_lu 0%nat 1%nat [A_example; B_example]
             = (Raise (NameError "back_substitution"), h').
Proof.
  eexists.
  refine (proj1 (gaussian_elimination_name_error det_lu [A_example; B_example] _
                   0%nat 1%nat 6%nat _)).
  vm_compute. reflexivity.
Defined.

(** C1 is not what the notebook does: on every well-shaped input
    that passes the determinant test, [gaussian_elimination] reduces
    [[A | B]] and then raises [NameError] at the call of the undefined
    [back_substitution]; it returns no solution vector. *)
Theorem gaussian_elimination_never_solves
    (det : ndarray -> float) (h : heap) (A B : loc) (a b : ndarray) (n k : nat) :
  h !! A = Some a -> h !! B = Some b -> shape n n a -> shape n k b ->
  np_isclose (det a) 0 default_rtol default_atol = false ->
  exists h', gaussian_elimination det A B h = (Raise (NameError "back_substitution"), h').
Proof.
  intros HA HB Hsa Hsb Hd.
  destruct (row_echelon_form_reduce det h A B a b HA HB (is_square_shape _ _ Hsa) Hd)
    as (h' & _ & Hrun).
  destruct (reduced_val_shape n k a b Hsa Hsb) as (m & Em & _).
  rewrite Em in Hrun. destruct Hrun as (l & El & _).
  exists h'. by rewrite gaussian_elimination_run, El.
Qed.

Lemma gaussian_elimination_never_solves_witness :
  exists h', gaussian_elimination det_lu 0%nat 1%nat [A_example; B_example]
             = (Raise (NameError "back_substitution"), h').
Proof.
  apply (gaussian_elimination_never_solves det_lu _ 0%nat 1%nat A_example B_example 3 1).
  - reflexivity.
  - reflexivity.
  - split; [reflexivity|repeat constructor].
  - split; [reflexivity|repeat constructor].
  - vm_compute. reflexivity.
Defined.

(** ** The caller's arrays *)

Lemma row_echelon_form_evolves det h A B a b :
  h !! A = Some a -> h !! B = Some b ->
  evolves (length h) h (row_echelon_form det A B h).2.
Proof.
  intros HA HB. destruct (is_square a) eqn:Hsq.
  - destruct (np_isclose (det a) 0 default_rtol default_atol) eqn:Hd.
    + rewrite (row_echelon_form_singular det h A B a HA Hsq Hd). apply evolves_refl.
    + destruct (row_echelon_form_reduce det h A B a b HA HB Hsq Hd) as (h' & Ev & Hrun).
      destruct (reduced_val a b) as [m|e].
      * destruct Hrun as (l & -> & _). exact Ev.
      * rewrite Hrun. exact Ev.
  - rewrite (row_echelon_form_not_square det h A B a HA Hsq). apply evolves_refl.
Qed.

Lemma gaussian_elimination_store det h A B :
  (gaussian_elimination det A B h).2 = (row_echelon_form det A B h).2.
Proof.
  rewrite gaussian_elimination_run.
  by destruct (row_echelon_form det A B h) as [[[s|l]|e] h'].
Qed.

Lemma swap_rows_evolves h M a i j :
  h !! M = Some a -> evolves (length h) h (swap_rows M i j h).2.
Proof.
  intros HM. rewrite (swap_rows_refines _ _ _ _ _ HM).
  destruct (swap_rows_val a i j); simpl; by apply evolves_app.
Qed.

(** C8: after a call of [swap_rows], [row_echelon_form] or
    [gaussian_elimination], whether it returns or raises, every array
    object the store held before the call, the arguments among them,
    holds the values it held; and [swap_rows(M, i, i)] returns a new
    array object, distinct from [M], whose contents are those of [M]. *)
Theorem arguments_not_mutated
    (det : ndarray -> float) (h : heap) (A B M : loc) (a b m : ndarray) (i j : Z) :
  h !! A = Some a -> h !! B = Some b -> h !! M = Some m ->
  (forall (l : loc) (x : ndarray), h !! l = Some x ->
     (swap_rows M i j h).2 !! l = Some x /\
     (row_echelon_form det A B h).2 !! l = Some x /\
     (gaussian_elimination det A B h).2 !! l = Some x) /\
  (rectangular (ncols m) m ->
   - Z.of_nat (nrows m) <= i < Z.of_nat (nrows m) ->
   exists M' : loc,
     swap_rows M i i h = (Ok M', h ++ [m]) /\
     M' <> M /\ h !! M' = None /\ (h ++ [m]) !! M' = Some m).
Proof.
  intros HA HB HM. split.
  - intros l x Hl. pose proof (lookup_lt_Some _ _ _ Hl) as Ll.
    split; [|split].
    + by eapply evolves_lookup; [by eapply swap_rows_evolves| |].
    + by eapply evolves_lookup; [by eapply row_echelon_form_evolves| |].
    + rewrite gaussian_elimination_store.
      by eapply evolves_lookup; [by eapply row_echelon_form_evolves| |].
  - intros Hr Hi. destruct (norm_index_valid _ _ Hi) as (i' & Ei & Li).
    destruct (lookup_lt_is_Some_2 m i' Li) as [ri Hri].
    exists (length h). split.
    + rewrite (swap_rows_ok h M m i i i' i' ri ri HM Hr Ei Ei Hri Hri).
      by rewrite list_insert_insert_eq, list_insert_id.
    + split; [apply lookup_lt_Some in HM; lia|].
      split; [by apply lookup_ge_None|apply lookup_fresh].
Qed.

Lemma arguments_not_mutated_witness :
  let h := [A_example; B_example; M_example] in
  (gaussian_elimination det_lu 0%nat 1%nat h).2 !! 0%nat = Some A_example /\
  exists M' : loc, swap_rows 2%nat 1 1 h = (Ok M', h ++ [M_example]) /\ M' <> 2%nat.
Proof.
  intros h.
  destruct (arguments_not_mutated det_lu h 0%nat 1%nat 2%nat
              A_example B_example M_example 1 1) as [H1 H2]; try reflexivity.
  split.
  - apply (H1 0%nat A_example). reflexivity.
  - destruct H2 as (M' & E & Hne & _).
    + repeat constructor.
    + simpl. lia.
    + by exists M'.
Defined.

(** ** A zero pivot with nothing below *)





(** ** Which tolerance each zero test uses *)

Lemma get_index_first_non_zero_from_row_run h M a row augmented :
  h !! M = Some a ->
  get_index_first_non_zero_from_row M row augmented h
  = (res_bind (getrow (if augmented then drop_last_column a else a) row)
       (fun row_array => Ok (first_non_zero row_array 0 0)),
     h ++ [a]).
Proof.
  intros HM. unfold get_index_first_non_zero_from_row.
  rewrite (bind_ok _ _ _ _ _ (ndarray_copy_ok _ _ _ HM)).
  rewrite (bind_ok _ _ _ _ _ (deref_ok _ _ _ (lookup_fresh h a))), lift_bind.
  by destruct (getrow _ row).
Qed.

(** C4, with the tolerance each test has: no zero test is an exact
    comparison, but there are two tolerances.  The loop of the two
    scanners takes an entry for zero exactly when its absolute value
    is at most [1e-5]; the pivot-candidate test and the determinant
    test, which call [np.isclose] without [atol], take a value for
    zero exactly when its absolute value is at most [1e-8]. *)
Theorem zero_test_tolerances (det : ndarray -> float) :
  (forall (val : float) (rest : row) (i offset : Z),
     first_non_zero (val :: rest) i offset
     = if (abs val <=? 1e-5)%float then first_non_zero rest (i + 1) offset
       else i + offset) /\
  (forall (h : heap) (M : loc) (a : ndarray) (column starting_row : Z),
     h !! M = Some a ->
     get_index_first_non_zero_from_column M column starting_row h
     = (res_bind (slice_column a starting_row column)
          (fun column_array => Ok (first_non_zero column_array 0 starting_row)), h)) /\
  (forall (h : heap) (M : loc) (a : ndarray) (row : Z) (augmented : bool),
     h !! M = Some a ->
     get_index_first_non_zero_from_row M row augmented h
     = (res_bind (getrow (if augmented then drop_last_column a else a) row)
          (fun row_array => Ok (first_non_zero row_array 0 0)), h ++ [a])) /\
  (forall (h : heap) (M : loc) (a : ndarray) (row : nat) (pc : float),
     h !! M = Some a -> getitem a (Z.of_nat row) (Z.of_nat row) = Ok pc ->
     select_pivot M row h
     = if (abs pc <=? 1e-8)%float then
         (swap_row_index ← get_index_first_non_zero_from_column M
                             (Z.of_nat row) (Z.of_nat row + 1);
          if swap_row_index =? -1 then mret None
          else
            M ← swap_rows M (Z.of_nat row) swap_row_index;
            a ← deref M;
            pivot ← lift (getitem a (Z.of_nat row) (Z.of_nat row));
            mret (Some (M, pivot))) h
       else (Ok (Some (M, pc)), h)) /\
  (forall (h : heap) (A B : loc) (a b : ndarray),
     h !! A = Some a -> h !! B = Some b -> is_square a = true ->
     (row_echelon_form det A B h = (Ok (VStr "singular system"), h)
      <-> (abs (det a) <=? 1e-8)%float = true)).
Proof.
  split; [|split; [|split; [|split]]].
  - intros val rest i offset. simpl. rewrite isclose_zero_scan.
    by destruct (abs val <=? 1e-5)%float.
  - intros h M a column starting_row HM.
    by rewrite (get_index_first_non_zero_from_column_refines _ _ _ _ _ HM).
  - intros h M a row augmented HM. by apply get_index_first_non_zero_from_row_run.
  - intros h M a row pc HM Hpc. unfold select_pivot.
    rewrite (bind_ok _ _ _ _ _ (deref_ok _ _ _ HM)), lift_bind, Hpc.
    rewrite isclose_zero_default. by destruct (abs pc <=? 1e-8)%float.
  - intros h A B a b HA HB Hsq. rewrite <- isclose_zero_default. split.
    + intros E. destruct (np_isclose (det a) 0 default_rtol default_atol) eqn:Hd; [done|].
      destruct (row_echelon_form_reduce det h A B a b HA HB Hsq Hd) as (h' & _ & Hrun).
      destruct (reduced_val a b) as [m|e].
      * destruct Hrun as (l & El & _). rewrite El in E. discriminate E.
      * rewrite Hrun in E. discriminate E.
    + intros Hd. by apply (row_echelon_form_singular det h A B a).
Qed.

(** C4 does not hold with the single tolerance [1e-5]: [1e-6] is
    within [1e-5] of zero, yet the pivot-candidate test takes it for a
    pivot and the determinant test lets a determinant of [1e-6]
    through; the row is divided by it. *)
Lemma default_tolerance_is_not_1e_5 :
  (abs 1e-6 <=? 1e-5)%float = true /\
  select_pivot 0%nat 0%nat [ [[1e-6; 1]]%float ]
  = (Ok (Some (0%nat, 1e-6%float)), [ [[1e-6; 1]]%float ]) /\
  det_lu A_small = 1e-6%float /\
  exists h', row_echelon_form det_lu 0%nat 1%nat [A_small; B_small] = (Ok (VArr 6%nat), h') /\
             h' !! 6%nat = Some [ [1; 1000000] ]%float.
Proof.
  split; [vm_compute; reflexivity|]. split; [vm_compute; reflexivity|].
  split; [vm_compute; reflexivity|]. eexists. split; vm_compute; reflexivity.
Qed.

(** ** The echelon shape *)

Lemma is_float_zero_spec z : is_float_zero z = true -> float_zero z.
Proof.
  unfold is_float_zero, float_zero. intros H. apply orb_true_iff in H.
  destruct H as [H|H]; apply FloatAxioms.Leibniz.eqb_spec in H; auto.
Qed.

Lemma regular_pivot_spec p :
  regular_pivot p = true ->
  (p / p)%float = 1%float /\ forall z, float_zero z -> float_zero (z / p)%float.
Proof.
  unfold regular_pivot. intros H.
  apply andb_true_iff in H as [H H3]. apply andb_true_iff in H as [H1 H2].
  apply FloatAxioms.Leibniz.eqb_spec in H1.
  apply is_float_zero_spec in H2, H3.
  split; [done|]. by intros z [-> | ->].
Qed.

Lemma regular_multiplier_spec v :
  regular_multiplier v = true ->
  (v - v * 1)%float = 0%float /\
  forall z z', float_zero z -> float_zero z' -> float_zero (z - v * z')%float.
Proof.
  unfold regular_multiplier. intros H.
  apply andb_true_iff in H as [H H5]. apply andb_true_iff in H as [H H4].
  apply andb_true_iff in H as [H H3]. apply andb_true_iff in H as [H1 H2].
  apply FloatAxioms.Leibniz.eqb_spec in H1.
  apply is_float_zero_spec in H2, H3, H4, H5.
  split; [done|]. by intros z z' [-> | ->] [-> | ->].
Qed.

Lemma lookup_map {X Y} (f : X -> Y) (l : list X) i :
  map f l !! i = f <$> l !! i.
Proof. revert i. induction l as [|x l IH]; intros [|i]; simpl; auto. Qed.

(** What the pivot choice leaves behind: the rows above [row] as they
    were, the rows from [row] on permuted, the pivot on the diagonal. *)
Lemma select_pivot_val_some n c (a a1 : ndarray) row pivot :
  shape n c a -> (row < n)%nat -> (row < c)%nat ->
  select_pivot_val a row = Ok (Some (a1, pivot)) ->
  shape n c a1 /\
  (exists r1, a1 !! row = Some r1 /\ r1 !! row = Some pivot) /\
  (forall j, (j < row)%nat -> a1 !! j = a !! j) /\
  (forall j rj, (row <= j)%nat -> a1 !! j = Some rj ->
                exists j', (row <= j')%nat /\ a !! j' = Some rj).
Proof.
  intros Hs Hn Hc E.
  destruct (select_pivot_val_cases n c a row Hs Hn Hc)
    as (r & pc & Er & Epc & [[_ E']|[(_ & E' & _)|(_ & s & rs & p & Hsn & Ers & Ep & _ & _ & E')]]);
    rewrite E' in E; [|discriminate E|].
  - injection E as <- <-. split; [done|]. split; [by exists r|]. split; [done|].
    intros j rj Hj Ej. by exists j.
  - injection E as <- <-. split.
    { destruct Hs as [Hna Hr].
      apply shape_insert; [apply shape_insert|]; [done| |]; by eapply rectangular_lookup. }
    assert (Lrow : (row < length a)%nat) by (by eapply lookup_lt_Some).
    assert (Ls : (s < length a)%nat) by (by eapply lookup_lt_Some).
    split.
    { exists rs. split; [|done]. rewrite list_lookup_insert_ne by lia.
      by apply list_lookup_insert_eq. }
    split.
    { intros j Hj. by rewrite !list_lookup_insert_ne by lia. }
    intros j rj Hj Ej. destruct (decide (j = s)) as [->|Hjs].
    + rewrite list_lookup_insert_eq in Ej by (by rewrite length_insert).
      exists row. split; [lia|congruence].
    + rewrite list_lookup_insert_ne in Ej by done.
      destruct (decide (j = row)) as [->|Hjr].
      * rewrite list_lookup_insert_eq in Ej by done. exists s. split; [lia|congruence].
      * rewrite list_lookup_insert_ne in Ej by done. exists j. split; [lia|done].
Qed.

Lemma echelon_at_select n c (a a1 : ndarray) row pivot i :
  shape n c a -> (row < n)%nat -> (row < c)%nat ->
  select_pivot_val a row = Ok (Some (a1, pivot)) ->
  (i < row)%nat -> echelon_at a i -> echelon_at a1 i.
Proof.
  intros Hs Hn Hc E Hi [(r & Er & E1) Hbelow].
  destruct (select_pivot_val_some n c a a1 row pivot Hs Hn Hc E)
    as (_ & _ & Habove & Hperm).
  split.
  - exists r. by rewrite Habove.
  - intros j rj Hj Ej. destruct (decide (j < row)%nat) as [Hlt|Hge].
    + rewrite Habove in Ej by done. by apply (Hbelow j).
    + destruct (Hperm j rj) as (j' & Hj' & Ej'); [lia|done|].
      apply (Hbelow j'); [lia|done].
Qed.

Lemma regular_row_multiplier n c (a a1 : ndarray) row pivot j rj v :
  shape n c a1 -> (row < c)%nat ->
  select_pivot_val a row = Ok (Some (a1, pivot)) ->
  regular_row n row a = true ->
  (row < j < n)%nat -> a1 !! j = Some rj -> rj !! row = Some v ->
  regular_pivot pivot = true /\ regular_multiplier v = true.
Proof.
  intros Hs1 Hc E Hreg Hj Ej Ev. unfold regular_row in Hreg. rewrite E in Hreg.
  apply andb_true_iff in Hreg as [Hp Hall]. split; [done|].
  assert (Hin : In j (range (row + 1) n)) by (unfold range; apply in_seq; lia).
  pose proof (proj1 (forallb_forall _ _) Hall j Hin) as Hj'. cbv beta in Hj'.
  by rewrite (getitem_nat2 n c a1 j row rj v Hs1 Hc Ej Ev) in Hj'.
Qed.

(** One pivoted row: the earlier pivots keep their shape, and the new
    one gets it. *)
Lemma reduce_row_val_echelon n c (a a1 a' : ndarray) row pivot :
  shape n c a -> (row < n)%nat -> (row < c)%nat ->
  select_pivot_val a row = Ok (Some (a1, pivot)) ->
  regular_row n row a = true ->
  reduce_row_val n row a = Ok a' ->
  (forall i, (i < row)%nat -> echelon_at a i -> echelon_at a' i) /\
  echelon_at a' row.
Proof.
  intros Hs Hn Hc E Hreg Ered.
  destruct (select_pivot_val_some n c a a1 row pivot Hs Hn Hc E)
    as (Hs1 & (r1 & Er1 & Ep) & _ & _).
  destruct (reduce_after_pivot n c a1 row pivot r1 Hs1 Hn Hc Er1)
    as (a2 & E2 & Hs2 & Hrow & Habove & Hbelow).
  unfold reduce_row_val in Ered. rewrite E in Ered.
  change (res_bind (normalize_row_val a1 row pivot)
            (fold_res (range (row + 1) n) (eliminate_row_val row)) = Ok a') in Ered.
  rewrite E2 in Ered. injection Ered as <-.
  assert (Hpiv : regular_pivot pivot = true).
  { unfold regular_row in Hreg. rewrite E in Hreg. by apply andb_true_iff in Hreg as [? _]. }
  destruct (regular_pivot_spec pivot Hpiv) as [Hone Hzdiv].
  set (rr := map (fun x => (x / pivot)%float) r1) in *.
  assert (Lr1 : length r1 = c).
  { destruct Hs1 as [_ Hr]. by eapply rectangular_lookup. }
  split.
  - intros i Hi Hech.
    destruct (echelon_at_select n c a a1 row pivot i Hs Hn Hc E Hi Hech)
      as [(r & Er & E1) Hz].
    destruct (Hz row r1 Hi Er1) as (z1 & Ez1 & Hz1).
    assert (Err : rr !! i = Some (z1 / pivot)%float).
    { unfold rr. by rewrite lookup_map, Ez1. }
    split.
    + exists r. by rewrite Habove.
    + intros j rj Hj Ej.
      destruct (decide (j < row)%nat) as [Hlt|Hge].
      { rewrite Habove in Ej by done. by apply (Hz j). }
      destruct (decide (j = row)) as [->|Hne].
      { rewrite Hrow in Ej. injection Ej as <-.
        exists (z1 / pivot)%float. split; [done|]. by apply Hzdiv. }
      assert (Hjn : (row < j < n)%nat).
      { split; [lia|]. apply lookup_lt_Some in Ej. destruct Hs2 as [<- _]. done. }
      destruct (shape_lookup n c a1 j Hs1) as (rj1 & Ej1 & Lj1); [lia|].
      destruct (Hbelow j rj1 Hjn Ej1) as (v & Ev & Ej2).
      rewrite Ej2 in Ej. injection Ej as <-.
      destruct (Hz j rj1) as (z & Ez & Hzz); [lia|done|].
      exists (z - v * (z1 / pivot))%float. split.
      * by rewrite lookup_zip_with, Ez, Err.
      * destruct (regular_row_multiplier n c a a1 row pivot j rj1 v) as [_ Hv]; try done.
        apply (regular_multiplier_spec v Hv); [done|by apply Hzdiv].
  - assert (Err : rr !! row = Some 1%float).
    { unfold rr. by rewrite lookup_map, Ep, <- Hone. }
    split.
    + by exists rr.
    + intros j rj Hj Ej.
      assert (Hjn : (row < j < n)%nat).
      { split; [lia|]. apply lookup_lt_Some in Ej. destruct Hs2 as [<- _]. done. }
      destruct (shape_lookup n c a1 j Hs1) as (rj1 & Ej1 & Lj1); [lia|].
      destruct (Hbelow j rj1 Hjn Ej1) as (v & Ev & Ej2).
      rewrite Ej2 in Ej. injection Ej as <-.
      exists (v - v * 1)%float. split.
      * by rewrite lookup_zip_with, Ev, Err.
      * destruct (regular_row_multiplier n c a a1 row pivot j rj1 v) as [_ Hv]; try done.
        left. by apply (regular_multiplier_spec v Hv).
Qed.

Lemma pivoted_rows_range n d : forall start (a : ndarray) i,
  In i (pivoted_rows n (seq start d) a) -> (start <= i < start + d)%nat.
Proof.
  induction d as [|d IH]; intros start a i Hin; simpl in Hin; [done|].
  apply in_app_or in Hin as [Hin|Hin].
  - destruct (select_pivot_val a start) as [[?|]|]; simpl in Hin; [|done|done].
    destruct Hin as [<-|[]]. lia.
  - destruct (reduce_row_val n start a); [|done]. apply IH in Hin. lia.
Qed.

Lemma reduce_rows_val_echelon n c d : forall start (a a' : ndarray),
  (start + d <= n)%nat -> (n <= c)%nat -> shape n c a ->
  regular_rows n (seq start d) a = true ->
  reduce_rows_val n (seq start d) a = Ok a' ->
  (forall i, (i < start)%nat -> echelon_at a i -> echelon_at a' i) /\
  (forall i, In i (pivoted_rows n (seq start d) a) -> echelon_at a' i).
Proof.
  induction d as [|d IH]; intros start a a' Hd Hnc Hs Hreg Ered.
  - injection Ered as <-. split; [done|]. intros i [].
  - simpl in Hreg, Ered |- *. unfold reduce_rows_val in Ered. simpl in Ered.
    destruct (reduce_row_val_shape n c a start Hs) as (a1 & E1 & Hs1); [lia|lia|].
    rewrite E1 in Hreg, Ered |- *. simpl in Ered.
    apply andb_true_iff in Hreg as [Hrow Hrest].
    destruct (IH (S start) a1 a') as [IH1 IH2]; [lia|done|done|done|done|].
    destruct (select_pivot_val a start) as [[[a0 pivot]|]|e] eqn:Esel.
    + destruct (reduce_row_val_echelon n c a a0 a1 start pivot) as [Hpres Hest];
        [done|lia|lia|done|done|done|].
      split.
      * intros i Hi Hech. apply IH1; [lia|]. by apply Hpres.
      * intros i [<-|Hin]; [apply IH1; [lia|done]|by apply IH2].
    + assert (a1 = a) as ->.
      { unfold reduce_row_val in E1. rewrite Esel in E1. simpl in E1. congruence. }
      split.
      * intros i Hi Hech. apply IH1; [lia|done].
      * intros i Hin. by apply IH2.
    + unfold reduce_row_val in E1. rewrite Esel in E1. discriminate E1.
Qed.

(** C6, for reductions whose arithmetic is regular: on an [n x n]
    array [A] and an [n x k] array [B] that pass the determinant test,
    and whose reduction meets only regular pivots and multipliers (as
    all finite ones are: [p / p] is [1], [v - v * 1] is [0], and a
    zero divided by [p] or diminished by [v] times a zero is a zero),
    [row_echelon_form] returns an array in which, for every row [i]
    that received a pivot, the diagonal entry is exactly [1] and every
    entry below it in column [i] is a zero ([0] or [-0]); both pass
    [np.isclose]. *)
Theorem row_echelon_shape
    (det : ndarray -> float) (h : heap) (A B : loc) (a b : ndarray) (n k : nat) :
  h !! A = Some a -> h !! B = Some b -> shape n n a -> shape n k b ->
  np_isclose (det a) 0 default_rtol default_atol = false ->
  regular_reduction a b = true ->
  exists (l : loc) (h' : heap) (m : ndarray),
    row_echelon_form det A B h = (Ok (VArr l), h') /\ h' !! l = Some m /\
    forall i : nat, In i (received_pivot a b) ->
      getitem m (Z.of_nat i) (Z.of_nat i) = Ok 1%float /\
      np_isclose 1 1 default_rtol default_atol = true /\
      forall j : nat, (i < j < n)%nat ->
        exists z, getitem m (Z.of_nat j) (Z.of_nat i) = Ok z /\ float_zero z /\
                  np_isclose z 0 default_rtol default_atol = true.
Proof.
  intros HA HB Hsa Hsb Hd Hreg.
  destruct (row_echelon_form_reduce det h A B a b HA HB (is_square_shape _ _ Hsa) Hd)
    as (h' & _ & Hrun).
  destruct (reduced_val_shape n k a b Hsa Hsb) as (m & Em & Hsm).
  rewrite Em in Hrun. destruct Hrun as (l & El & _ & Hl).
  exists l, h', m. split; [done|]. split; [done|].
  unfold reduced_val in Em. unfold regular_reduction in Hreg. unfold received_pivot.
  assert (Hna : nrows a = n) by apply Hsa.
  assert (Eh : hstack a b = Ok (zip_with app a b)).
  { unfold hstack. destruct Hsb as [-> _]. by rewrite Hna, Nat.eqb_refl. }
  rewrite Eh in Em, Hreg |- *. simpl in Em. rewrite Hna in Em, Hreg |- *.
  assert (Hs0 : shape n (n + k) (zip_with app a b)).
  { split; [|apply zip_with_app_rect; [apply Hsa|apply Hsb]].
    destruct Hsb as [Hnb _]. unfold nrows in *. rewrite length_zip_with. lia. }
  unfold range in Em, Hreg |- *. rewrite Nat.sub_0_r in Em, Hreg |- *.
  destruct (reduce_rows_val_echelon n (n + k) n 0 (zip_with app a b) m) as [_ Hech];
    [lia|lia|done|done|done|].
  intros i Hin. pose proof (pivoted_rows_range _ _ _ _ _ Hin) as Hi.
  destruct (Hech i Hin) as [(r & Er & E1) Hbelow].
  split; [apply (getitem_nat2 n (n + k) m i i r); [done|lia|done|done]|].
  split; [vm_compute; reflexivity|].
  intros j Hj. destruct (shape_lookup n (n + k) m j Hsm) as (rj & Ej & _); [lia|].
  destruct (Hbelow j rj) as (z & Ez & Hz); [lia|done|].
  exists z. split; [apply (getitem_nat2 n (n + k) m j i rj); [done|lia|done|done]|].
  split; [done|]. destruct Hz as [-> | ->]; vm_compute; reflexivity.
Qed.

Lemma row_echelon_shape_witness :
  exists (l : loc) (h' : heap) (m : ndarray),
    row_echelon_form det_lu 0%nat 1%nat [A_example; B_example] = (Ok (VArr l), h') /\
    h' !! l = Some m /\
    getitem m 1 1 = Ok 1%float /\
    exists z, getitem m 2 1 = Ok z /\ float_zero z.
Proof.
  destruct (row_echelon_shape det_lu [A_example; B_example] 0%nat 1%nat
              A_example B_example 3 1) as (l & h' & m & E & Hl & Hech).
  - reflexivity.
  - reflexivity.
  - split; [reflexivity|repeat constructor].
  - split; [reflexivity|repeat constructor].
  - vm_compute. reflexivity.
  - vm_compute. reflexivity.
  - exists l, h', m. split; [exact E|]. split; [exact Hl|].
    destruct (Hech 1%nat) as (H1 & _ & Hbelow).
    + vm_compute. tauto.
    + split; [exact H1|].
      destruct (Hbelow 2%nat) as (z & Hz & Hzero & _); [lia|].
      exists z. split; [exact Hz|exact Hzero].
Defined.

(** C6 does not hold of binary64 arithmetic: the entries of [A_huge]
    are finite and any determinant that passes the test lets it
    through, but eliminating the second row overflows
    ([1 - 1e200 * 1e200] is [-infinity]); the second row then receives
    the pivot [-infinity], and its diagonal entry becomes
    [-infinity / -infinity], a NaN, not [1]. *)
Lemma overflow_breaks_echelon :
  In 1%nat (received_pivot A_huge B_huge) /\
  np_isclose nan 1 default_rtol default_atol = false /\
  np_isclose (det_lu A_huge) 0 default_rtol default_atol = false /\
  forall det : ndarray -> float,
    np_isclose (det A_huge) 0 default_rtol default_atol = false ->
    exists (l : loc) (h' : heap) (m : ndarray),
      row_echelon_form det 0%nat 1%nat [A_huge; B_huge] = (Ok (VArr l), h') /\
      h' !! l = Some m /\
      getitem m 1 1 = Ok nan.
Proof.
  split; [vm_compute; tauto|]. split; [vm_compute; reflexivity|].
  split; [vm_compute; reflexivity|].
  intros det Hd.
  destruct (row_echelon_form_reduce det [A_huge; B_huge] 0%nat 1%nat A_huge B_huge)
    as (h' & _ & Hrun); [reflexivity|reflexivity|reflexivity|exact Hd|].
  assert (Em : reduced_val A_huge B_huge = Ok M_huge) by (vm_compute; reflexivity).
  rewrite Em in Hrun. destruct Hrun as (l & El & _ & Hl).
  exists l, h', M_huge. split; [exact El|]. split; [exact Hl|]. vm_compute. reflexivity.
Qed.

Lemma zero_test_tolerances_witness :
  select_pivot 0%nat 0%nat [ [[1e-6; 1]]%float ]
  = (Ok (Some (0%nat, 1e-6%float)), [ [[1e-6; 1]]%float ]).
Proof.
  destruct (zero_test_tolerances det_lu) as (_ & _ & _ & H & _).
  rewrite (H [ [[1e-6; 1]]%float ] 0%nat [[1e-6; 1]]%float 0%nat 1e-6%float eq_refl eq_refl).
  vm_compute. reflexivity.
Defined.

(** * Further properties of the notebook's functions *)

(** ** swap_rows: what it returns and when it raises *)

Lemma norm_index_invalid n i :
  ~ (- Z.of_nat n <= i < Z.of_nat n) -> norm_index n i = Raise IndexError.
Proof.
  intros H. unfold norm_index.
  destruct (0 <=? i) eqn:E1, (i <? Z.of_nat n) eqn:E2; simpl; try lia;
    destruct (- Z.of_nat n <=? i) eqn:E3, (i <? 0) eqn:E4; simpl; try lia; done.
Qed.

Lemma getrow_inv (a : ndarray) i r :
  getrow a i = Ok r -> exists i', norm_index (nrows a) i = Ok i' /\ a !! i' = Some r.
Proof.
  unfold getrow. destruct (norm_index (nrows a) i) as [i'|e]; simpl; [|done].
  destruct (a !! i') as [r'|] eqn:E; [|done]. intros [= <-]. by exists i'.
Qed.

Lemma getrow_raise (a : ndarray) i e : getrow a i = Raise e -> e = IndexError.
Proof.
  unfold getrow, norm_index.
  destruct ((0 <=? i) && (i <? Z.of_nat (nrows a))); simpl.
  - destruct (a !! Z.to_nat i); [done|]. by intros [= <-].
  - destruct ((- Z.of_nat (nrows a) <=? i) && (i <? 0)); simpl.
    + destruct (a !! Z.to_nat (Z.of_nat (nrows a) + i)); [done|]. by intros [= <-].
    + by intros [= <-].
Qed.

(** X1: For valid row indices, [swap_rows(M, i, j)] returns a new array
    object of the shape of [M] in which row [i] is row [j] of [M], row
    [j] is row [i] of [M], and every other row is the row of [M]. *)
Theorem swap_rows_exchanges (h : heap) (M : loc) (a : ndarray) (i j : Z) :
  h !! M = Some a -> rectangular (ncols a) a ->
  - Z.of_nat (nrows a) <= i < Z.of_nat (nrows a) ->
  - Z.of_nat (nrows a) <= j < Z.of_nat (nrows a) ->
  exists (i' j' : nat) (a' : ndarray),
    norm_index (nrows a) i = Ok i' /\ norm_index (nrows a) j = Ok j' /\
    swap_rows M i j h = (Ok (length h), h ++ [a']) /\
    nrows a' = nrows a /\ ncols a' = ncols a /\
    getrow a' i = getrow a j /\ getrow a' j = getrow a i /\
    forall k : nat, k <> i' -> k <> j' -> a' !! k = a !! k.
Proof.
  intros HM Hr Hi Hj.
  destruct (norm_index_valid _ _ Hi) as (i' & Ei & Li).
  destruct (norm_index_valid _ _ Hj) as (j' & Ej & Lj).
  destruct (lookup_lt_is_Some_2 a i' Li) as [ri Hri].
  destruct (lookup_lt_is_Some_2 a j' Lj) as [rj Hrj].
  pose proof (rectangular_lookup _ _ _ _ Hr Hri) as Lri.
  pose proof (rectangular_lookup _ _ _ _ Hr Hrj) as Lrj.
  set (a' := <[j' := ri]> (<[i' := rj]> a)).
  assert (Hn' : nrows a' = nrows a) by (unfold nrows, a'; by rewrite !length_insert).
  assert (Hj' : a' !! j' = Some ri).
  { unfold a'. apply list_lookup_insert_eq. by rewrite length_insert. }
  assert (Hi' : a' !! i' = Some rj).
  { unfold a'. destruct (decide (i' = j')) as [->|Hne].
    - rewrite list_lookup_insert_eq by (by rewrite length_insert). congruence.
    - rewrite list_lookup_insert_ne by done. by apply list_lookup_insert_eq. }
  exists i', j', a'. split; [done|]. split; [done|].
  split; [by apply (swap_rows_ok h M a i j i' j' ri rj)|].
  split; [done|]. split.
  { unfold a'. rewrite ncols_insert; rewrite ncols_insert; done. }
  split.
  { rewrite (getrow_ok a' i i' rj), (getrow_ok a j j' rj); try done. by rewrite Hn'. }
  split.
  { rewrite (getrow_ok a' j j' ri), (getrow_ok a i i' ri); try done. by rewrite Hn'. }
  intros k Hki Hkj. unfold a'. by rewrite !list_lookup_insert_ne.
Qed.

Lemma swap_rows_exchanges_witness :
  exists a' : ndarray,
    swap_rows 0%nat 0 2 [M_example] = (Ok 1%nat, [M_example] ++ [a']) /\
    getrow a' 0 = getrow M_example 2.
Proof.
  destruct (swap_rows_exchanges [M_example] 0%nat M_example 0 2)
    as (i' & j' & a' & _ & _ & E & _ & _ & H0 & _).
  - reflexivity.
  - repeat constructor.
  - simpl. lia.
  - simpl. lia.
  - by exists a'.
Defined.

Lemma swap_rows_val_sym (a : ndarray) i j : swap_rows_val a i j = swap_rows_val a j i.
Proof.
  unfold swap_rows_val. simpl.
  destruct (getrow a j) as [rj|ej] eqn:Gj, (getrow a i) as [ri|ei] eqn:Gi; simpl; try done.
  - destruct (getrow_inv _ _ _ Gi) as (i' & Ei & Hri).
    destruct (getrow_inv _ _ _ Gj) as (j' & Ej & Hrj).
    unfold put_rows. simpl. rewrite Ei, Ej. simpl.
    destruct (length rj =? ncols a)%nat, (length ri =? ncols a)%nat; simpl; try done.
    f_equal. destruct (decide (i' = j')) as [->|Hne].
    + assert (ri = rj) as -> by congruence. done.
    + by rewrite list_insert_insert_ne.
  - by rewrite (getrow_raise _ _ _ Gi), (getrow_raise _ _ _ Gj).
Qed.

(** X2: The order of the two indices does not matter: on every store and
    for all integers [i] and [j], valid or not, [swap_rows(M, i, j)]
    and [swap_rows(M, j, i)] return or raise the same, and leave the
    same store. *)
Theorem swap_rows_symmetric (h : heap) (M : loc) (i j : Z) :
  swap_rows M i j h = swap_rows M j i h.
Proof.
  destruct (h !! M) as [a|] eqn:HM.
  - by rewrite !(swap_rows_refines _ _ _ _ _ HM), swap_rows_val_sym.
  - unfold swap_rows, ndarray_copy. rewrite !bind_run.
    unfold deref. by rewrite HM.
Qed.

(** X3: An index outside [-n, n) makes [swap_rows] raise [IndexError]; the
    copy has been made by then, and [M] itself is as it was. *)
Theorem swap_rows_index_error (h : heap) (M : loc) (a : ndarray) (i j : Z) :
  h !! M = Some a ->
  ~ (- Z.of_nat (nrows a) <= i < Z.of_nat (nrows a)) \/
  ~ (- Z.of_nat (nrows a) <= j < Z.of_nat (nrows a)) ->
  swap_rows M i j h = (Raise IndexError, h ++ [a]) /\
  (h ++ [a]) !! M = Some a.
Proof.
  intros HM Hbad. split; [|by apply lookup_old].
  rewrite (swap_rows_refines _ _ _ _ _ HM).
  assert (E : swap_rows_val a i j = Raise IndexError); [|by rewrite E].
  unfold swap_rows_val. simpl.
  destruct (getrow a j) as [rj|ej] eqn:Gj; simpl.
  - destruct (getrow a i) as [ri|ei] eqn:Gi; simpl.
    + destruct (getrow_inv _ _ _ Gi) as (i' & Ei & _).
      destruct (getrow_inv _ _ _ Gj) as (j' & Ej & _).
      destruct Hbad as [Hbad|Hbad].
      * rewrite (norm_index_invalid _ _ Hbad) in Ei. discriminate Ei.
      * rewrite (norm_index_invalid _ _ Hbad) in Ej. discriminate Ej.
    + by rewrite (getrow_raise _ _ _ Gi).
  - by rewrite (getrow_raise _ _ _ Gj).
Qed.

Lemma swap_rows_index_error_witness :
  swap_rows 0%nat 0 3 [M_example] = (Raise IndexError, [M_example] ++ [M_example]).
Proof.
  refine (proj1 (swap_rows_index_error [M_example] 0%nat M_example 0 3 _ _)).
  - reflexivity.
  - right. simpl. lia.
Defined.

(** ** The column scanner at its edges *)

Lemma getitem_Z (a : ndarray) (k column : Z) k' c' x :
  norm_index (nrows a) k = Ok k' -> norm_index (ncols a) column = Ok c' ->
  a !! k' ≫= (fun r : row => r !! c') = Some x ->
  getitem a k column = Ok x.
Proof.
  intros Hk Hc Hx. unfold getitem. rewrite Hk, Hc. simpl.
  destruct (a !! k') as [r|]; simpl in Hx; [|done]. by rewrite Hx.
Qed.

Lemma norm_index_neg n k :
  - Z.of_nat n <= k < 0 -> norm_index n k = Ok (Z.to_nat (Z.of_nat n + k)).
Proof.
  intros Hk. unfold norm_index.
  assert ((0 <=? k) = false) as -> by lia. simpl.
  assert ((- Z.of_nat n <=? k) = true) as -> by lia.
  by assert ((k <? 0) = true) as -> by lia.
Qed.

(** X4: A column index outside [-c, c) makes the column scanner raise
    [IndexError], whatever [starting_row] is, and the store is left as
    it is. *)
Theorem get_index_first_non_zero_from_column_index_error
    (h : heap) (M : loc) (a : ndarray) (column starting_row : Z) :
  h !! M = Some a -> (0 < nrows a)%nat ->
  ~ (- Z.of_nat (ncols a) <= column < Z.of_nat (ncols a)) ->
  get_index_first_non_zero_from_column M column starting_row h = (Raise IndexError, h).
Proof.
  intros HM _ Hbad.
  rewrite (get_index_first_non_zero_from_column_refines _ _ _ _ _ HM).
  unfold first_non_zero_from_column_val, slice_column.
  by rewrite (norm_index_invalid _ _ Hbad).
Qed.

Lemma get_index_first_non_zero_from_column_index_error_witness :
  get_index_first_non_zero_from_column 0%nat 5 7 [N_example] = (Raise IndexError, [N_example]).
Proof.
  apply (get_index_first_non_zero_from_column_index_error [N_example] 0%nat N_example 5 7).
  - reflexivity.
  - simpl. lia.
  - simpl. lia.
Defined.

(** X5: With a negative [starting_row] in [-n, 0) the scan starts at row
    [n + starting_row] and the position found is returned as a
    negative index: the result [r] is either [-1] with every entry
    from that row on within [1e-5] of zero, or satisfies
    [starting_row <= r < 0] with [M[r, column]] (read as NumPy reads a
    negative index) the first entry beyond [1e-5].  When the last row
    holds that entry the result is [-1] as well; and with
    [starting_row = -1] the function returns [-1] on every array. *)
Theorem column_scan_negative_start
    (h : heap) (M : loc) (a : ndarray) (column starting_row : Z) :
  h !! M = Some a -> rectangular (ncols a) a ->
  - Z.of_nat (ncols a) <= column < Z.of_nat (ncols a) ->
  - Z.of_nat (nrows a) <= starting_row < 0 ->
  exists r : Z,
    get_index_first_non_zero_from_column M column starting_row h = (Ok r, h) /\
    ((r = -1 /\
      forall k : Z, starting_row <= k < 0 ->
        exists x, getitem a k column = Ok x /\ (abs x <=? 1e-5)%float = true) \/
     (starting_row <= r < 0 /\
      (exists x, getitem a r column = Ok x /\ (abs x <=? 1e-5)%float = false) /\
      forall k : Z, starting_row <= k < r ->
        exists x, getitem a k column = Ok x /\ (abs x <=? 1e-5)%float = true)) /\
    (starting_row = -1 -> r = -1).
Proof.
  intros HM Hr Hc Hs.
  destruct (norm_index_valid _ _ Hc) as (c' & Ec & Lc).
  rewrite (get_index_first_non_zero_from_column_refines _ _ _ _ _ HM).
  unfold first_non_zero_from_column_val, slice_column. rewrite Ec. simpl.
  set (n := nrows a) in *.
  set (s' := slice_start n starting_row).
  assert (Es : Z.of_nat s' = Z.of_nat n + starting_row).
  { unfold s', slice_start. assert ((starting_row <? 0) = true) as -> by lia. lia. }
  set (values := omap (fun r : row => r !! c') (drop s' a)).
  assert (Hv : forall k, values !! k = a !! (s' + k)%nat ≫= (fun r : row => r !! c')).
  { intros k. unfold values.
    rewrite (column_lookup (ncols a)); [by rewrite lookup_drop| |done].
    by apply Forall_drop. }
  assert (Hz : forall k : Z, starting_row <= k < 0 ->
            exists x, values !! Z.to_nat (k - starting_row) = Some x /\
                      getitem a k column = Ok x).
  { intros k Hk. set (p := Z.to_nat (Z.of_nat n + k)).
    destruct (lookup_lt_is_Some_2 a p) as [r Er]; [unfold n, nrows in *; lia|].
    destruct (lookup_lt_is_Some_2 r c') as [x Ex].
    { by rewrite (rectangular_lookup _ _ _ _ Hr Er). }
    exists x. rewrite Hv.
    replace (s' + Z.to_nat (k - starting_row))%nat with p by (unfold p; lia).
    rewrite Er. simpl. split; [done|].
    apply (getitem_Z a k column p c'); [apply norm_index_neg; lia|done|].
    by rewrite Er. }
  eexists. split; [done|].
  assert (Hcases :
    (first_non_zero values 0 starting_row = -1 /\
      forall k : Z, starting_row <= k < 0 ->
        exists x, getitem a k column = Ok x /\ (abs x <=? 1e-5)%float = true) \/
     (starting_row <= first_non_zero values 0 starting_row < 0 /\
      (exists x, getitem a (first_non_zero values 0 starting_row) column = Ok x /\
                 (abs x <=? 1e-5)%float = false) /\
      forall k : Z, starting_row <= k < first_non_zero values 0 starting_row ->
        exists x, getitem a k column = Ok x /\ (abs x <=? 1e-5)%float = true)).
  { destruct (first_non_zero_spec values 0 starting_row)
      as [[E Hall]|(k0 & x & Hk0 & Hx & E & Hall)].
    - left. split; [done|]. intros k Hk.
      destruct (Hz k Hk) as (x & Hx1 & Hx2).
      exists x. split; [done|]. by apply (Hall _ _ Hx1).
    - assert (Lk : (s' + k0 < n)%nat).
      { rewrite Hv in Hk0. destruct (a !! (s' + k0)%nat) eqn:E'; [|done].
        by apply lookup_lt_Some in E'. }
      right. rewrite E. split; [lia|]. split.
      + exists x. split; [|done].
        destruct (Hz (0 + Z.of_nat k0 + starting_row)) as (x' & Hx1 & Hx2); [lia|].
        replace (Z.to_nat (0 + Z.of_nat k0 + starting_row - starting_row)) with k0 in Hx1 by lia.
        congruence.
      + intros k Hk. destruct (Hz k) as (x' & Hx1 & Hx2); [lia|].
        exists x'. split; [done|].
        apply (Hall (Z.to_nat (k - starting_row))); [lia|done]. }
  split; [exact Hcases|].
  intros ->. destruct Hcases as [[E _]|[Hrange _]]; [done|lia].
Qed.

Lemma column_scan_negative_start_witness :
  get_index_first_non_zero_from_column 0%nat 1 (-1) [N_example] = (Ok (-1), [N_example]).
Proof.
  destruct (column_scan_negative_start [N_example] 0%nat N_example 1 (-1))
    as (r & E & _ & Hlast).
  - reflexivity.
  - repeat constructor.
  - simpl. lia.
  - simpl. lia.
  - rewrite E. by rewrite (Hlast eq_refl).
Defined.

(** ** The row scanner *)

Lemma nrows_drop_last_column (a : ndarray) : nrows (drop_last_column a) = nrows a.
Proof. unfold nrows, drop_last_column. apply length_map. Qed.

(** X6: For a valid row index, [get_index_first_non_zero_from_row] works
    on a copy (one array is added to the store, [M] is not touched)
    and returns the smallest column index whose entry in that row
    exceeds [1e-5] in absolute value, or [-1] when there is none; with
    [augmented=True] the last entry of the row is not looked at. *)
Theorem get_index_first_non_zero_from_row_spec
    (h : heap) (M : loc) (a : ndarray) (row : Z) (augmented : bool) :
  h !! M = Some a ->
  - Z.of_nat (nrows a) <= row < Z.of_nat (nrows a) ->
  exists (i' : nat) (r scanned : list float) (c : Z),
    norm_index (nrows a) row = Ok i' /\ a !! i' = Some r /\
    scanned = (if augmented then take (length r - 1) r else r) /\
    get_index_first_non_zero_from_row M row augmented h = (Ok c, h ++ [a]) /\
    (h ++ [a]) !! M = Some a /\
    ((c = -1 /\
      forall (k : nat) x, scanned !! k = Some x -> (abs x <=? 1e-5)%float = true) \/
     (0 <= c < Z.of_nat (length scanned) /\
      (exists x, scanned !! Z.to_nat c = Some x /\ (abs x <=? 1e-5)%float = false) /\
      forall (k : nat) x, (k < Z.to_nat c)%nat -> scanned !! k = Some x ->
                          (abs x <=? 1e-5)%float = true)).
Proof.
  intros HM Hrow.
  destruct (norm_index_valid _ _ Hrow) as (i' & Ei & Li).
  destruct (lookup_lt_is_Some_2 a i' Li) as [r Er].
  set (scanned := if augmented then take (length r - 1) r else r).
  exists i', r, scanned. eexists.
  split; [done|]. split; [done|]. split; [done|].
  rewrite (get_index_first_non_zero_from_row_run _ _ _ _ _ HM).
  assert (Eg : getrow (if augmented then drop_last_column a else a) row = Ok scanned).
  { unfold scanned. destruct augmented.
    - apply (getrow_ok _ _ i'); [by rewrite nrows_drop_last_column|].
      unfold drop_last_column. by rewrite lookup_map, Er.
    - by apply (getrow_ok _ _ i'). }
  rewrite Eg. simpl. split; [done|]. split; [by apply lookup_old|].
  destruct (first_non_zero_spec scanned 0 0) as [[E Hall]|(k0 & x & Hk0 & Hx & E & Hall)].
  - by left.
  - right. rewrite E. pose proof (lookup_lt_Some _ _ _ Hk0) as Lk.
    replace (Z.to_nat (0 + Z.of_nat k0 + 0)) with k0 by lia.
    split; [lia|]. split; [by exists x|done].
Qed.

Lemma get_index_first_non_zero_from_row_spec_witness :
  get_index_first_non_zero_from_row 0%nat 3 false [N_example]
  = (Ok 4, [N_example] ++ [N_example]).
Proof.
  destruct (get_index_first_non_zero_from_row_spec [N_example] 0%nat N_example 3 false)
    as (i' & r & scanned & c & _ & _ & _ & E & _).
  - reflexivity.
  - simpl. lia.
  - rewrite E. vm_compute in E. by injection E as <-.
Defined.

(** X7: A row index outside [-n, n) makes the row scanner raise
    [IndexError], after the copy has been made. *)
Theorem get_index_first_non_zero_from_row_index_error
    (h : heap) (M : loc) (a : ndarray) (row : Z) (augmented : bool) :
  h !! M = Some a ->
  ~ (- Z.of_nat (nrows a) <= row < Z.of_nat (nrows a)) ->
  get_index_first_non_zero_from_row M row augmented h = (Raise IndexError, h ++ [a]).
Proof.
  intros HM Hbad. rewrite (get_index_first_non_zero_from_row_run _ _ _ _ _ HM).
  unfold getrow.
  replace (nrows (if augmented then drop_last_column a else a)) with (nrows a)
    by (destruct augmented; [by rewrite nrows_drop_last_column|done]).
  by rewrite (norm_index_invalid _ _ Hbad).
Qed.

Lemma get_index_first_non_zero_from_row_index_error_witness :
  get_index_first_non_zero_from_row 0%nat 5 true [N_example]
  = (Raise IndexError, [N_example] ++ [N_example]).
Proof.
  apply (get_index_first_non_zero_from_row_index_error [N_example] 0%nat N_example 5 true).
  - reflexivity.
  - simpl. lia.
Defined.

(** ** augmented_matrix: errors, and getting [A] and [B] back *)

Lemma augmented_matrix_run h A B a b :
  h !! A = Some a -> h !! B = Some b ->
  augmented_matrix A B h
  = match hstack a b with
    | Ok m => (Ok (length h), h ++ [m])
    | Raise e => (Raise e, h)
    end.
Proof.
  intros HA HB. unfold augmented_matrix.
  rewrite (bind_ok _ _ _ _ _ (deref_ok _ _ _ HA)).
  rewrite (bind_ok _ _ _ _ _ (deref_ok _ _ _ HB)), lift_bind.
  by destruct (hstack a b).
Qed.

(** X8: Arrays with different numbers of rows make [augmented_matrix]
    raise [ValueError]; nothing is allocated. *)
Theorem augmented_matrix_value_error (h : heap) (A B : loc) (a b : ndarray) :
  h !! A = Some a -> h !! B = Some b -> nrows a <> nrows b ->
  augmented_matrix A B h = (Raise ValueError, h).
Proof.
  intros HA HB Hne. rewrite (augmented_matrix_run _ _ _ _ _ HA HB).
  unfold hstack. by rewrite (proj2 (Nat.eqb_neq _ _) Hne).
Qed.

Lemma augmented_matrix_value_error_witness :
  augmented_matrix 0%nat 1%nat [A_example; B_skip] = (Raise ValueError, [A_example; B_skip]).
Proof.
  apply (augmented_matrix_value_error _ 0%nat 1%nat A_example B_skip); try reflexivity.
  simpl. lia.
Defined.

Lemma hstack_split c (a b : ndarray) :
  rectangular c a -> length a = length b ->
  map (take c) (zip_with app a b) = a /\ map (drop c) (zip_with app a b) = b.
Proof.
  intros Hr. revert b. induction Hr as [|ra a Hl Hr IH]; intros [|rb b] Hlen;
    simpl in *; try done.
  destruct (IH b) as [E1 E2]; [lia|]. rewrite E1, E2.
  by rewrite (take_app_length' ra rb c), (drop_app_length' ra rb c).
Qed.

(** X9: The augmented array splits back into its parts: the first [c]
    entries of its rows are [A] (of [c] columns) and the remaining
    entries are [B]. *)
Theorem augmented_matrix_split (h : heap) (A B : loc) (a b : ndarray) (c : nat) :
  h !! A = Some a -> h !! B = Some b ->
  rectangular c a -> nrows a = nrows b ->
  exists m : ndarray,
    augmented_matrix A B h = (Ok (length h), h ++ [m]) /\
    map (take c) m = a /\ map (drop c) m = b.
Proof.
  intros HA HB Hr Hn. exists (zip_with app a b).
  rewrite (augmented_matrix_run _ _ _ _ _ HA HB). unfold hstack.
  rewrite Hn, Nat.eqb_refl. split; [done|]. by apply hstack_split.
Qed.

Lemma augmented_matrix_split_witness :
  exists m : ndarray,
    augmented_matrix 0%nat 1%nat [A_example; B_example]
    = (Ok 2%nat, [A_example; B_example] ++ [m]) /\
    map (take 3) m = A_example /\ map (drop 3) m = B_example.
Proof.
  apply (augmented_matrix_split [A_example; B_example] 0%nat 1%nat A_example B_example 3).
  - reflexivity.
  - reflexivity.
  - repeat constructor.
  - reflexivity.
Defined.

Lemma drop_last_column_hstack (a b : ndarray) :
  length a = length b -> rectangular 1 b ->
  drop_last_column (zip_with app a b) = a.
Proof.
  intros Hlen Hb. revert a Hlen. induction Hb as [|rb b Hl Hb IH]; intros [|ra a] Hlen;
    simpl in *; try done.
  unfold drop_last_column in IH. rewrite IH by lia. f_equal.
  rewrite length_app, Hl. replace (length ra + 1 - 1)%nat with (length ra) by lia.
  apply take_app_length.
Qed.

(** X10: On [[A | B]] with a one-column [B], the row scanner called with
    [augmented=True] answers as it does on [A] alone: the constants
    column is never taken for a pivot. *)
Theorem row_scan_of_augmented_matrix
    (h : heap) (A B : loc) (a b : ndarray) (row : Z) :
  h !! A = Some a -> h !! B = Some b ->
  nrows a = nrows b -> rectangular 1 b ->
  exists (M : loc) (h1 : heap),
    augmented_matrix A B h = (Ok M, h1) /\
    (get_index_first_non_zero_from_row M row true h1).1
    = (get_index_first_non_zero_from_row A row false h).1.
Proof.
  intros HA HB Hn Hb. exists (length h), (h ++ [zip_with app a b]). split.
  - rewrite (augmented_matrix_run _ _ _ _ _ HA HB). unfold hstack.
    by rewrite Hn, Nat.eqb_refl.
  - rewrite (get_index_first_non_zero_from_row_run _ _ _ _ _ (lookup_fresh h _)).
    rewrite (get_index_first_non_zero_from_row_run _ _ _ _ false HA). simpl.
    by rewrite drop_last_column_hstack.
Qed.

Lemma row_scan_of_augmented_matrix_witness :
  exists (M : loc) (h1 : heap),
    augmented_matrix 0%nat 1%nat [A_example; B_example] = (Ok M, h1) /\
    (get_index_first_non_zero_from_row M 1 true h1).1
    = (get_index_first_non_zero_from_row 0%nat 1 false [A_example; B_example]).1.
Proof.
  apply (row_scan_of_augmented_matrix [A_example; B_example] 0%nat 1%nat A_example B_example 1).
  - reflexivity.
  - reflexivity.
  - reflexivity.
  - repeat constructor.
Defined.

(** ** row_echelon_form: errors, and the object it returns *)

(** X11: A coefficient array that is not square makes [row_echelon_form],
    and [gaussian_elimination] with it, raise [LinAlgError] at the
    determinant; nothing has been copied yet and [B] is not looked
    at. *)
Theorem not_square_raises
    (det : ndarray -> float) (h : heap) (A B : loc) (a : ndarray) :
  h !! A = Some a -> is_square a = false ->
  row_echelon_form det A B h = (Raise LinAlgError, h) /\
  gaussian_elimination det A B h = (Raise LinAlgError, h).
Proof.
  intros HA Hsq.
  pose proof (row_echelon_form_not_square det h A B a HA Hsq) as E.
  split; [exact E|]. by rewrite gaussian_elimination_run, E.
Qed.

Lemma not_square_raises_witness :
  gaussian_elimination det_lu 0%nat 1%nat [M_skip; B_skip]
  = (Raise LinAlgError, [M_skip; B_skip]).
Proof.
  refine (proj2 (not_square_raises det_lu [M_skip; B_skip] 0%nat 1%nat M_skip _ _));
    reflexivity.
Defined.

(** X12: A right-hand side with another number of rows than a square [A]
    that passes the determinant test makes both functions raise
    [ValueError], at [np.hstack]; the arrays the store held before the
    call are as they were. *)
Theorem row_count_mismatch_raises
    (det : ndarray -> float) (h : heap) (A B : loc) (a b : ndarray) :
  h !! A = Some a -> h !! B = Some b -> is_square a = true ->
  np_isclose (det a) 0 default_rtol default_atol = false ->
  nrows a <> nrows b ->
  exists h' : heap,
    row_echelon_form det A B h = (Raise ValueError, h') /\
    gaussian_elimination det A B h = (Raise ValueError, h') /\
    forall (l : loc) (x : ndarray), h !! l = Some x -> h' !! l = Some x.
Proof.
  intros HA HB Hsq Hd Hne.
  destruct (row_echelon_form_reduce det h A B a b HA HB Hsq Hd) as (h' & Ev & Hrun).
  assert (E : reduced_val a b = Raise ValueError).
  { unfold reduced_val, hstack. by rewrite (proj2 (Nat.eqb_neq _ _) Hne). }
  rewrite E in Hrun. exists h'. split; [exact Hrun|].
  split; [by rewrite gaussian_elimination_run, Hrun|].
  intros l x Hl. eapply evolves_lookup; [exact Ev| |exact Hl]. by eapply lookup_lt_Some.
Qed.

Lemma row_count_mismatch_raises_witness :
  exists h' : heap,
    row_echelon_form det_lu 0%nat 1%nat [A_example; B_skip] = (Raise ValueError, h').
Proof.
  destruct (row_count_mismatch_raises det_lu [A_example; B_skip] 0%nat 1%nat
              A_example B_skip) as (h' & E & _).
  - reflexivity.
  - reflexivity.
  - reflexivity.
  - vm_compute. reflexivity.
  - simpl. lia.
  - by exists h'.
Defined.

(** X13: The array [row_echelon_form] returns is an object of its own: it
    was not in the store before the call, so it is neither [A] nor [B]
    nor any array the caller holds. *)
Theorem row_echelon_form_returns_new_object
    (det : ndarray -> float) (h h' : heap) (A B l : loc) (a b : ndarray) :
  h !! A = Some a -> h !! B = Some b ->
  row_echelon_form det A B h = (Ok (VArr l), h') ->
  h !! l = None /\ l <> A /\ l <> B /\ exists m : ndarray, h' !! l = Some m.
Proof.
  intros HA HB E.
  destruct (is_square a) eqn:Hsq;
    [|rewrite (row_echelon_form_not_square det h A B a HA Hsq) in E; discriminate E].
  destruct (np_isclose (det a) 0 default_rtol default_atol) eqn:Hd;
    [rewrite (row_echelon_form_singular det h A B a HA Hsq Hd) in E; discriminate E|].
  destruct (row_echelon_form_reduce det h A B a b HA HB Hsq Hd) as (h1 & _ & Hrun).
  destruct (reduced_val a b) as [m|e]; [|rewrite Hrun in E; discriminate E].
  destruct Hrun as (l1 & El & Hl & Hm). rewrite El in E. injection E as <- <-.
  apply lookup_lt_Some in HA, HB.
  split; [by apply lookup_ge_None|]. split; [lia|]. split; [lia|]. by exists m.
Qed.

Lemma row_echelon_form_returns_new_object_witness :
  [A_example; B_example] !! 6%nat = None.
Proof.
  refine (proj1 (row_echelon_form_returns_new_object det_lu [A_example; B_example] _
                   0%nat 1%nat 6%nat A_example B_example _ _ _)).
  - reflexivity.
  - reflexivity.
  - vm_compute. reflexivity.
Defined.

(** ** One step of the reduction *)

Lemma select_pivot_swap_run h M (a a1 : ndarray) row pc pivot :
  h !! M = Some a ->
  getitem a (Z.of_nat row) (Z.of_nat row) = Ok pc ->
  np_isclose pc 0 default_rtol default_atol = true ->
  select_pivot_val a row = Ok (Some (a1, pivot)) ->
  select_pivot M row h = (Ok (Some (length h, pivot)), h ++ [a1]).
Proof.
  intros HM Hpc Hclose Hval. unfold select_pivot, select_pivot_val in *.
  rewrite (bind_ok _ _ _ _ _ (deref_ok _ _ _ HM)), lift_bind, Hpc.
  rewrite Hpc in Hval. simpl in Hval. rewrite Hclose in Hval |- *.
  rewrite bind_run, (get_index_first_non_zero_from_column_refines _ _ _ _ _ HM).
  destruct (first_non_zero_from_column_val a (Z.of_nat row) (Z.of_nat row + 1))
    as [s|e]; simpl in Hval |- *; [|done].
  destruct (s =? -1); [done|].
  rewrite bind_run, (swap_rows_refines _ _ _ _ _ HM).
  destruct (swap_rows_val a (Z.of_nat row) s) as [a2|e]; simpl in Hval |- *; [|done].
  rewrite (bind_ok _ _ _ _ _ (deref_ok _ _ _ (lookup_fresh h a2))), lift_bind.
  destruct (getitem a2 (Z.of_nat row) (Z.of_nat row)) as [p|e]; simpl in Hval |- *; [|done].
  by injection Hval as -> ->.
Qed.

(** X14: The pivoting rule.  When the diagonal entry of row [row] is within
    [1e-8] of zero and [s] is the first row below it whose entry in
    that column exceeds [1e-5] in absolute value, the pivot chosen is
    that entry, whatever larger entries lie further down, and the loop
    goes on with a new array object in which rows [row] and [s] are
    exchanged; the array it had is left as it was. *)
Theorem pivot_is_first_non_zero_below
    (h : heap) (M : loc) (am : ndarray) (n c row s : nat) (pc p : float) :
  h !! M = Some am -> shape n c am -> (row < s < n)%nat -> (row < c)%nat ->
  getitem am (Z.of_nat row) (Z.of_nat row) = Ok pc -> (abs pc <=? 1e-8)%float = true ->
  getitem am (Z.of_nat s) (Z.of_nat row) = Ok p -> (abs p <=? 1e-5)%float = false ->
  (forall (j : nat) (y : float), (row < j < s)%nat ->
     getitem am (Z.of_nat j) (Z.of_nat row) = Ok y -> (abs y <=? 1e-5)%float = true) ->
  exists a1 : ndarray,
    select_pivot M row h = (Ok (Some (length h, p)), h ++ [a1]) /\
    (h ++ [a1]) !! M = Some am /\
    a1 !! row = am !! s /\ a1 !! s = am !! row /\
    forall k : nat, k <> row -> k <> s -> a1 !! k = am !! k.
Proof.
  intros HM Hs Hrs Hc Hpc Hz Hp Hnz Hbetween.
  assert (Hn : (row < n)%nat) by lia.
  destruct (select_pivot_val_cases n c am row Hs Hn Hc) as (r & pc' & Er & Epc & Hcases).
  rewrite (getitem_nat2 n c am row row r pc' Hs Hc Er Epc) in Hpc. injection Hpc as ->.
  destruct (getitem_nat_inv n c am s row p Hs) as (rs & Ers & Ep); [lia|done|done|].
  rewrite <- isclose_zero_default in Hz.
  destruct Hcases as [[Hf _]|[(_ & _ & Hall)|(_ & s' & rs' & p' & Hs' & Ers' & Ep' & Hnz' & Hbefore & E)]].
  - congruence.
  - rewrite (Hall s rs p) in Hnz; [discriminate Hnz|lia|done|done].
  - assert (s' = s) as ->.
    { destruct (Nat.lt_trichotomy s' s) as [Hlt|[Heq|Hgt]]; [|done|].
      - rewrite (Hbetween s' p') in Hnz'; [discriminate Hnz'|lia|].
        by apply (getitem_nat2 n c am s' row rs').
      - rewrite (Hbefore s rs p) in Hnz; [discriminate Hnz|lia|done|done]. }
    assert (rs' = rs) as -> by congruence. assert (p' = p) as -> by congruence.
    exists (<[s := r]> (<[row := rs]> am)).
    assert (Lrow : (row < length am)%nat) by (by eapply lookup_lt_Some).
    assert (Ls : (s < length am)%nat) by (by eapply lookup_lt_Some).
    split.
    { apply (select_pivot_swap_run h M am _ row pc p HM); [|done|done].
      by apply (getitem_nat2 n c am row row r pc). }
    split; [by apply lookup_old|]. split.
    { rewrite list_lookup_insert_ne by lia. rewrite Ers. by apply list_lookup_insert_eq. }
    split.
    { rewrite Er. apply list_lookup_insert_eq. by rewrite length_insert. }
    intros k Hk1 Hk2. by rewrite !list_lookup_insert_ne.
Qed.

Lemma pivot_is_first_non_zero_below_witness :
  exists a1 : ndarray,
    select_pivot 0%nat 0%nat [M_pivot] = (Ok (Some (1%nat, 2%float)), [M_pivot] ++ [a1]).
Proof.
  destruct (pivot_is_first_non_zero_below [M_pivot] 0%nat M_pivot 3 3 0 1 0%float 2%float)
    as (a1 & E & _).
  - reflexivity.
  - split; [reflexivity|repeat constructor].
  - lia.
  - lia.
  - reflexivity.
  - vm_compute. reflexivity.
  - reflexivity.
  - vm_compute. reflexivity.
  - intros j y Hj. lia.
  - by exists a1.
Defined.

Lemma eliminate_rows_run row (xs : list nat) : forall M h (a a' : ndarray),
  h !! M = Some a ->
  fold_res xs (eliminate_row_val row) a = Ok a' ->
  for_each xs (eliminate_row row) M h = (Ok M, <[M := a']> h).
Proof.
  induction xs as [|j xs IH]; intros M h a a' HM Hfold; simpl in *.
  - injection Hfold as <-. by rewrite list_insert_id.
  - rewrite bind_run, (eliminate_row_run _ _ _ _ _ HM).
    destruct (eliminate_row_val row j a) as [a1|e]; simpl in Hfold; [|done].
    rewrite (IH M (<[M := a1]> h) a1 a' (store_lookup _ _ _ _ HM) Hfold).
    by rewrite list_insert_insert_eq.
Qed.

(** X15: The elimination step proper.  When the diagonal entry [pc] of row
    [row] is beyond [1e-8], the loop body works in place: it returns
    the same array object, allocates nothing and changes no other
    object; row [row] is divided by [pc], every row [j] below has
    [M[j, row]] times the divided row subtracted, and the rows above
    are not touched. *)
Theorem reduce_row_in_place
    (h : heap) (M : loc) (am : ndarray) (n c row : nat) (r : list float) (pc : float) :
  h !! M = Some am -> shape n c am -> (row < n)%nat -> (row < c)%nat ->
  am !! row = Some r -> r !! row = Some pc -> (abs pc <=? 1e-8)%float = false ->
  exists a' : ndarray,
    reduce_row n row M h = (Ok M, <[M := a']> h) /\
    shape n c a' /\
    a' !! row = Some (map (fun x => (x / pc)%float) r) /\
    (forall j : nat, (j < row)%nat -> a' !! j = am !! j) /\
    (forall (j : nat) (rj : list float), (row < j < n)%nat -> am !! j = Some rj ->
       exists v, rj !! row = Some v /\
         a' !! j = Some (zip_with (fun x y => (x - v * y)%float) rj
                           (map (fun x => (x / pc)%float) r))).
Proof.
  intros HM Hs Hn Hc Er Epc Hnz.
  destruct (reduce_after_pivot n c am row pc r Hs Hn Hc Er)
    as (a' & E & Hs' & Hrow & Habove & Hbelow).
  exists a'. split; [|done].
  assert (Esel : select_pivot M row h = (Ok (Some (M, pc)), h)).
  { unfold select_pivot.
    rewrite (bind_ok _ _ _ _ _ (deref_ok _ _ _ HM)), lift_bind.
    rewrite (getitem_nat2 n c am row row r pc Hs Hc Er Epc).
    by rewrite isclose_zero_default, Hnz. }
  unfold reduce_row. rewrite bind_run, Esel, bind_run, (normalize_row_run _ _ _ _ _ HM).
  destruct (normalize_row_val am row pc) as [a2|e]; simpl in E; [|done].
  rewrite (eliminate_rows_run row _ M (<[M := a2]> h) a2 a' (store_lookup _ _ _ _ HM) E).
  by rewrite list_insert_insert_eq.
Qed.

Lemma reduce_row_in_place_witness :
  exists a' : ndarray,
    reduce_row 3 0 0%nat [ zip_with app A_example B_example ]
    = (Ok 0%nat, <[0%nat := a']> [ zip_with app A_example B_example ]) /\
    a' !! 0%nat = Some (map (fun x => (x / 2)%float) [2; 1; -1; 8]%float).
Proof.
  destruct (reduce_row_in_place [ zip_with app A_example B_example ] 0%nat
              (zip_with app A_example B_example) 3 4 0 [2; 1; -1; 8]%float 2%float)
    as (a' & E & _ & Hrow & _).
  - reflexivity.
  - split; [reflexivity|repeat constructor].
  - lia.
  - lia.
  - reflexivity.
  - reflexivity.
  - vm_compute. reflexivity.
  - by exists a'.
Defined.

(** ** The loop works downwards *)

Lemma reduce_row_val_above n c (a a' : ndarray) row :
  shape n c a -> (row < n)%nat -> (row < c)%nat ->
  reduce_row_val n row a = Ok a' ->
  forall j, (j < row)%nat -> a' !! j = a !! j.
Proof.
  intros Hs Hn Hc Ered j Hj. unfold reduce_row_val in Ered.
  destruct (select_pivot_val a row) as [[[a1 pivot]|]|e] eqn:Esel; simpl in Ered.
  - destruct (select_pivot_val_some n c a a1 row pivot Hs Hn Hc Esel)
      as (Hs1 & (r1 & Er1 & _) & Habove & _).
    destruct (reduce_after_pivot n c a1 row pivot r1 Hs1 Hn Hc Er1)
      as (a2 & E2 & _ & _ & Habove2 & _).
    change (res_bind (normalize_row_val a1 row pivot)
              (fold_res (range (row + 1) n) (eliminate_row_val row)) = Ok a') in Ered.
    rewrite E2 in Ered. injection Ered as <-.
    rewrite Habove2 by done. by apply Habove.
  - by injection Ered as <-.
  - done.
Qed.

Lemma reduce_rows_val_above n c d : forall start (a a' : ndarray),
  (start + d <= n)%nat -> (n <= c)%nat -> shape n c a ->
  reduce_rows_val n (seq start d) a = Ok a' ->
  forall j, (j < start)%nat -> a' !! j = a !! j.
Proof.
  induction d as [|d IH]; intros start a a' Hd Hnc Hs Ered j Hj.
  - by injection Ered as <-.
  - unfold reduce_rows_val in Ered. simpl in Ered.
    destruct (reduce_row_val_shape n c a start Hs) as (a1 & E1 & Hs1); [lia|lia|].
    rewrite E1 in Ered. simpl in Ered.
    rewrite (IH (S start) a1 a') by (done || lia).
    apply (reduce_row_val_above n c a a1 start); (done || lia).
Qed.

(** X16: The loop invariant of the reduction: run from row [start] on, on
    a well-shaped array, the loop raises nothing, keeps the shape, and
    returns an array whose rows above [start] are the rows it was
    given.  A row that has been processed is final. *)
Theorem rows_above_are_kept
    (h : heap) (M : loc) (am : ndarray) (n c start d : nat) :
  h !! M = Some am -> shape n c am -> (start + d <= n)%nat -> (n <= c)%nat ->
  exists (M' : loc) (h' : heap) (a' : ndarray),
    for_each (seq start d) (reduce_row n) M h = (Ok M', h') /\
    h' !! M' = Some a' /\ shape n c a' /\
    forall j : nat, (j < start)%nat -> a' !! j = am !! j.
Proof.
  intros HM Hs Hd Hnc.
  destruct (reduce_rows_val_shape n c (seq start d) am Hs) as (a' & E & Hs').
  { apply Forall_forall. intros i Hi. apply list_elem_of_In, in_seq in Hi. lia. }
  destruct (for_each_refines 0 (seq start d) (reduce_row n) (reduce_row_val n)
              (fun x => reduce_row_refines 0 n x) M h am) as (h' & _ & Hrun); [lia|done|].
  unfold reduce_rows_val in E. rewrite E in Hrun. destruct Hrun as (M' & Erun & _ & HM').
  exists M', h', a'. split; [done|]. split; [done|]. split; [done|].
  by apply (reduce_rows_val_above n c d start am a').
Qed.

Lemma rows_above_are_kept_witness :
  exists (M' : loc) (h' : heap) (a' : ndarray),
    for_each (seq 1 2) (reduce_row 3) 0%nat [M_pivot] = (Ok M', h') /\
    h' !! M' = Some a' /\ a' !! 0%nat = M_pivot !! 0%nat.
Proof.
  destruct (rows_above_are_kept [M_pivot] 0%nat M_pivot 3 3 1 2)
    as (M' & h' & a' & E & HM' & _ & Habove).
  - reflexivity.
  - split; [reflexivity|repeat constructor].
  - lia.
  - lia.
  - exists M', h', a'. split; [exact E|]. split; [exact HM'|]. apply Habove. lia.
Defined.

(** X17: The first equation is normalised by its leading coefficient: when
    [A[0, 0]] is beyond [1e-8] and the input passes the determinant
    test, the first row of the array [row_echelon_form] returns is the
    first row of [[A | B]] with every entry divided by [A[0, 0]]. *)
Theorem first_row_of_result
    (det : ndarray -> float) (h : heap) (A B : loc) (a b : ndarray) (n k : nat)
    (ra rb : list float) (pc : float) :
  h !! A = Some a -> h !! B = Some b -> shape n n a -> shape n k b ->
  np_isclose (det a) 0 default_rtol default_atol = false ->
  a !! 0%nat = Some ra -> b !! 0%nat = Some rb ->
  ra !! 0%nat = Some pc -> (abs pc <=? 1e-8)%float = false ->
  exists (l : loc) (h' : heap) (m : ndarray),
    row_echelon_form det A B h = (Ok (VArr l), h') /\ h' !! l = Some m /\
    m !! 0%nat = Some (map (fun x => (x / pc)%float) (ra ++ rb)).
Proof.
  intros HA HB Hsa Hsb Hd Era Erb Epc Hnz.
  destruct (row_echelon_form_reduce det h A B a b HA HB (is_square_shape _ _ Hsa) Hd)
    as (h' & _ & Hrun).
  destruct (reduced_val_shape n k a b Hsa Hsb) as (m & Em & Hsm).
  rewrite Em in Hrun. destruct Hrun as (l & El & _ & Hl).
  exists l, h', m. split; [done|]. split; [done|].
  assert (Hna : nrows a = n) by apply Hsa.
  assert (Hpos : (0 < n)%nat).
  { apply lookup_lt_Some in Era. unfold nrows in Hna. lia. }
  assert (Hc : (0 < n + k)%nat) by lia.
  set (m0 := zip_with app a b).
  assert (Hs0 : shape n (n + k) m0).
  { split; [|apply zip_with_app_rect; [apply Hsa|apply Hsb]].
    destruct Hsb as [Hnb _]. unfold m0, nrows in *. rewrite length_zip_with. lia. }
  assert (E0 : m0 !! 0%nat = Some (ra ++ rb)) by (by apply zip_with_app_lookup).
  assert (Ep0 : (ra ++ rb) !! 0%nat = Some pc) by (by apply lookup_app_l_Some).
  unfold reduced_val, hstack in Em. destruct Hsb as [Hnb Hrb].
  rewrite Hna, Hnb, Nat.eqb_refl in Em. simpl in Em. fold m0 in Em.
  unfold range in Em. rewrite Nat.sub_0_r in Em.
  destruct n as [|n']; [lia|].
  unfold reduce_rows_val in Em. simpl in Em.
  destruct (reduce_row_val_shape (S n') (S n' + k) m0 0 Hs0 Hpos Hc) as (a1 & E1 & Hs1).
  rewrite E1 in Em. simpl in Em.
  assert (Ea1 : a1 !! 0%nat = Some (map (fun x => (x / pc)%float) (ra ++ rb))).
  { destruct (select_pivot_val_cases (S n') (S n' + k) m0 0 Hs0 Hpos Hc)
      as (r & pc' & Er & Epc' & Hcases).
    assert (r = ra ++ rb) as -> by congruence. assert (pc' = pc) as -> by congruence.
    rewrite <- isclose_zero_default in Hnz.
    destruct Hcases as [[_ Esel]|[(Ht & _)|(Ht & _)]]; [|congruence|congruence].
    destruct (reduce_after_pivot (S n') (S n' + k) m0 0 pc (ra ++ rb) Hs0 Hpos Hc Er)
      as (a2 & E2 & _ & Hrow & _).
    unfold reduce_row_val in E1. rewrite Esel in E1.
    change (res_bind (normalize_row_val m0 0 pc)
              (fold_res (range (0 + 1) (S n')) (eliminate_row_val 0)) = Ok a1) in E1.
    rewrite E2 in E1. by injection E1 as <-. }
  rewrite <- Ea1.
  apply (reduce_rows_val_above (S n') (S n' + k) n' 1 a1 m); (done || lia).
Qed.

Lemma first_row_of_result_witness :
  exists (l : loc) (h' : heap) (m : ndarray),
    row_echelon_form det_lu 0%nat 1%nat [A_example; B_example] = (Ok (VArr l), h') /\
    h' !! l = Some m /\
    m !! 0%nat = Some (map (fun x => (x / 2)%float) ([2; 1; -1] ++ [8])%float).
Proof.
  apply (first_row_of_result det_lu [A_example; B_example] 0%nat 1%nat
           A_example B_example 3 1 [2; 1; -1]%float [8]%float 2%float).
  - reflexivity.
  - reflexivity.
  - split; [reflexivity|repeat constructor].
  - split; [reflexivity|repeat constructor].
  - vm_compute. reflexivity.
  - reflexivity.
  - reflexivity.
  - reflexivity.
  - vm_compute. reflexivity.
Defined.
